(** * Real-time meeting intelligence: conversation window, suggestion
      orchestrator and distribution hub

    A shallow embedding of the Python backend (context_manager.py,
    llm_generator.py, main.py, websocket_server.py) and the properties
    of its trigger engine.

    Conventions of the embedding.
    - A Python [str] is a [string]; a character is a code point below 256.
    - A [datetime] is a number of microseconds ([Z]), the resolution of
      [datetime]; every call of [datetime.now()] is an explicit argument
      holding the clock reading of that call.
    - A Python exception is a value of [py_exception]; code that may raise
      returns a [py_result]. *)

From Stdlib Require Import ZArith List String Ascii Bool Lia Permutation Sorted.
From stdpp Require Import base gmap sets sorting.
Import ListNotations.

Local Open Scope string_scope.
Local Open Scope Z_scope.

(** ** Python exceptions and results *)

Module Py.

(** The exception classes the modelled code can meet. [KeyboardInterrupt]
    and [SystemExit] derive from [BaseException] only; [CancelledError]
    does too since Python 3.8. *)
Inductive py_exception : Type :=
  | APIError            (* anthropic.APIError and its subclasses *)
  | ConnectionClosed    (* websockets.exceptions.ConnectionClosed *)
  | IndexError
  | AttributeError
  | TypeError
  | OSError
  | RuntimeError
  | KeyboardInterrupt
  | SystemExit
  | CancelledError.

(** [isinstance(e, Exception)]. *)
Definition isinstance_Exception (e : py_exception) : bool :=
  match e with
  | KeyboardInterrupt | SystemExit | CancelledError => false
  | _ => true
  end.

(** [isinstance(e, anthropic.APIError)]. *)
Definition isinstance_APIError (e : py_exception) : bool :=
  match e with
  | APIError => true
  | _ => false
  end.

(** [isinstance(e, ConnectionClosed)]. *)
Definition isinstance_ConnectionClosed (e : py_exception) : bool :=
  match e with
  | ConnectionClosed => true
  | _ => false
  end.

Inductive py_result (A : Type) : Type :=
  | Ok (a : A)
  | Raise (e : py_exception).
Arguments Ok {A} a.
Arguments Raise {A} e.

Definition bind {A B : Type} (m : py_result A) (k : A -> py_result B)
  : py_result B :=
  match m with
  | Ok a => k a
  | Raise e => Raise e
  end.

(** The [except] clauses of a [try] statement, in source order: the
    first clause whose class test accepts the exception handles it, and an
    exception no clause accepts propagates. *)
Definition except_clause (A : Type) : Type :=
  ((py_exception -> bool) * (py_exception -> py_result A))%type.

Fixpoint handle {A : Type} (e : py_exception)
    (clauses : list (except_clause A)) : py_result A :=
  match clauses with
  | [] => Raise e
  | (cls, handler) :: rest => if cls e then handler e else handle e rest
  end.

Definition try_except {A : Type} (body : py_result A)
    (clauses : list (except_clause A)) : py_result A :=
  match body with
  | Ok a => Ok a
  | Raise e => handle e clauses
  end.

End Py.
Import Py.

Notation "'let!' x ':=' m 'in' k" := (bind m (fun x => k))
  (at level 10, x name, m at level 100, k at level 200).

(** ** Python strings *)

Module PyStr.

Definition chars : string -> list ascii := list_ascii_of_string.
Definition str : list ascii -> string := string_of_list_ascii.

(** The double quote, code point 34, and the single quote, 39. *)
Definition dquote : ascii := ascii_of_nat 34.
Definition squote : ascii := ascii_of_nat 39.
Definition newline : ascii := ascii_of_nat 10.

(** [c.isspace()] for a code point below 256; the regular expression
    class [\s] of a [str] pattern is the same set. *)
Definition isspace (c : ascii) : bool :=
  let n := nat_of_ascii c in
  ((9 <=? n) && (n <=? 13))%nat || ((28 <=? n) && (n <=? 32))%nat
  || (n =? 133)%nat || (n =? 160)%nat.

(** [c.isdigit()] restricted to the regular expression class [\d]; below
    256 the decimal digits are [0-9]. *)
Definition isdigit (c : ascii) : bool :=
  let n := nat_of_ascii c in ((48 <=? n) && (n <=? 57))%nat.

Fixpoint dropwhile {A : Type} (p : A -> bool) (l : list A) : list A :=
  match l with
  | [] => []
  | x :: l' => if p x then dropwhile p l' else l
  end.

Fixpoint takewhile {A : Type} (p : A -> bool) (l : list A) : list A :=
  match l with
  | [] => []
  | x :: l' => if p x then x :: takewhile p l' else []
  end.

Definition lstrip_chars (p : ascii -> bool) (l : list ascii) : list ascii :=
  dropwhile p l.

Definition rstrip_chars (p : ascii -> bool) (l : list ascii) : list ascii :=
  rev (dropwhile p (rev l)).

(** [s.strip()] when [p] is [isspace]; [s.strip(cs)] when [p] tests
    membership in [cs]. *)
Definition strip_chars (p : ascii -> bool) (l : list ascii) : list ascii :=
  rstrip_chars p (lstrip_chars p l).

Definition strip (s : string) : string := str (strip_chars isspace (chars s)).

(** [s.strip(cs)] where [cs] holds the double and the single quote. *)
Definition isquote (c : ascii) : bool :=
  Ascii.eqb c dquote || Ascii.eqb c squote.

Definition strip_quotes (s : string) : string :=
  str (strip_chars isquote (chars s)).

(** [s.split(nl)] at newlines: never empty, one more piece than there are
    newlines. *)
Fixpoint split_lines_aux (cur : list ascii) (l : list ascii)
  : list (list ascii) :=
  match l with
  | [] => [rev cur]
  | c :: l' =>
      if Ascii.eqb c newline then rev cur :: split_lines_aux [] l'
      else split_lines_aux (c :: cur) l'
  end.

Definition split_lines (s : string) : list string :=
  map str (split_lines_aux [] (chars s)).

(** [s.startswith(c)] and [s.endswith(c)] for a one-character [c]. *)
Definition startswith (c : ascii) (s : string) : bool :=
  match chars s with
  | x :: _ => Ascii.eqb x c
  | [] => false
  end.

Definition endswith (c : ascii) (s : string) : bool :=
  match rev (chars s) with
  | x :: _ => Ascii.eqb x c
  | [] => false
  end.

(** [s[1:-1]]. *)
Definition slice_1_m1 (s : string) : string :=
  str (removelast (tl (chars s))).

(** [len(s)]. *)
Definition len (s : string) : Z := Z.of_nat (String.length s).

(** [nl.join(l)] with the newline as separator. *)
Fixpoint join_lines (l : list string) : string :=
  match l with
  | [] => EmptyString
  | [s] => s
  | s :: l' => s ++ String newline (join_lines l')
  end.

Definition isupper_ascii (c : ascii) : bool :=
  let n := nat_of_ascii c in ((65 <=? n) && (n <=? 90))%nat.

Definition islower_ascii (c : ascii) : bool :=
  let n := nat_of_ascii c in ((97 <=? n) && (n <=? 122))%nat.

Definition upper_ascii (c : ascii) : ascii :=
  if islower_ascii c then ascii_of_nat (nat_of_ascii c - 32) else c.

Definition lower_ascii (c : ascii) : ascii :=
  if isupper_ascii c then ascii_of_nat (nat_of_ascii c + 32) else c.

(** [s.title()] on ASCII text (the speaker labels of this program): a
    letter that follows a letter is lower-cased, any other letter is
    upper-cased. *)
Fixpoint title_aux (prev_cased : bool) (l : list ascii) : list ascii :=
  match l with
  | [] => []
  | c :: l' =>
      let cased := isupper_ascii c || islower_ascii c in
      (if prev_cased then lower_ascii c else upper_ascii c)
        :: title_aux cased l'
  end.

Definition title (s : string) : string := str (title_aux false (chars s)).

End PyStr.
Import PyStr.

(** ** context_manager.py: the conversation buffer *)

Module ContextManager.

(** [class Utterance]; [timestamp] is the reading of [datetime.now()]
    taken when the object is built. *)
Record Utterance : Type := {
  speaker : string;
  text : string;
  timestamp : Z;
  is_final : bool
}.

(** [class ConversationBuffer]. [max_duration] is in seconds, as in the
    source; [suggestion_cooldown], a number of seconds in the source, is
    held in microseconds, so that [5.0] is [5000000]. *)
Record ConversationBuffer : Type := {
  utterances : list Utterance;          (* deque, oldest on the left *)
  max_duration : Z;
  suggestion_cooldown : Z;
  last_suggestion_time : option Z;
  _pending_interim : option Utterance
}.

Definition microseconds (seconds : Z) : Z := seconds * 1000000.

(** [ConversationBuffer.__init__]. *)
Definition init (max_duration_seconds suggestion_cooldown_us : Z)
  : ConversationBuffer :=
  {| utterances := [];
     max_duration := max_duration_seconds;
     suggestion_cooldown := suggestion_cooldown_us;
     last_suggestion_time := None;
     _pending_interim := None |}.

(** The buffer of [SalesAssistant.__init__]: 180 s of history, 5.0 s of
    cooldown. *)
Definition default_buffer : ConversationBuffer := init 180 5000000.

Definition set_utterances (us : list Utterance) (b : ConversationBuffer)
  : ConversationBuffer :=
  {| utterances := us;
     max_duration := max_duration b;
     suggestion_cooldown := suggestion_cooldown b;
     last_suggestion_time := last_suggestion_time b;
     _pending_interim := _pending_interim b |}.

Definition set_pending_interim (p : option Utterance) (b : ConversationBuffer)
  : ConversationBuffer :=
  {| utterances := utterances b;
     max_duration := max_duration b;
     suggestion_cooldown := suggestion_cooldown b;
     last_suggestion_time := last_suggestion_time b;
     _pending_interim := p |}.

(** The loop of [_prune_old]: pop from the left while the leftmost entry
    is older than the cutoff. *)
Fixpoint popleft_while_old (cutoff : Z) (us : list Utterance)
  : list Utterance :=
  match us with
  | [] => []
  | u :: us' =>
      if timestamp u <? cutoff then popleft_while_old cutoff us' else us
  end.

(** [_prune_old]; [now] is its reading of the clock. *)
Definition _prune_old (now : Z) (b : ConversationBuffer)
  : ConversationBuffer :=
  let cutoff := now - microseconds (max_duration b) in
  set_utterances (popleft_while_old cutoff (utterances b)) b.

(** [add]; [now] is the clock reading of the [_prune_old] it calls for a
    final utterance (an interim utterance reads no clock). *)
Definition add (now : Z) (utterance : Utterance) (b : ConversationBuffer)
  : ConversationBuffer :=
  if is_final utterance then
    let b1 := set_pending_interim None b in
    let b2 := set_utterances (utterances b1 ++ [utterance])%list b1 in
    _prune_old now b2
  else
    set_pending_interim (Some utterance) b.

(** The speaker label both [add_transcript] and
    [SalesAssistant._process_transcript] compute from the diarization id. *)
Definition speaker_label (speaker_id : Z) : string :=
  if speaker_id =? 0 then "prospect" else "salesperson".

(** [add_transcript]: [now_created] is the clock reading of the
    [Utterance] constructor, [now_pruned] the later one of [_prune_old]. *)
Definition add_transcript (now_created now_pruned : Z)
    (txt : string) (speaker_id : Z) (final : bool) (b : ConversationBuffer)
  : ConversationBuffer :=
  let utterance :=
    {| speaker := speaker_label speaker_id;
       text := strip txt;
       timestamp := now_created;
       is_final := final |} in
  add now_pruned utterance b.

(** [deque[-1]]: raises [IndexError] on an empty deque. *)
Definition index_last (us : list Utterance) : py_result Utterance :=
  match last us with
  | None => Raise IndexError
  | Some u => Ok u
  end.

(** The cooldown test of [should_trigger_ai]: [last_suggestion_time] is
    set and less than [suggestion_cooldown] has elapsed at [now]. *)
Definition in_cooldown (now : Z) (b : ConversationBuffer) : bool :=
  match last_suggestion_time b with
  | Some t => now - t <? suggestion_cooldown b
  | None => false
  end.

(** [should_trigger_ai]; [now] is its reading of the clock. *)
Definition should_trigger_ai (now : Z) (b : ConversationBuffer)
  : py_result bool :=
  match utterances b with
  | [] => Ok false
  | _ =>
      if in_cooldown now b then Ok false
      else
        let! last := index_last (utterances b) in
        if negb (String.eqb (speaker last) "prospect") || negb (is_final last)
        then Ok false
        else if len (text last) <? 10 then Ok false
        else Ok true
  end.

(** [mark_suggestion_sent]. *)
Definition mark_suggestion_sent (now : Z) (b : ConversationBuffer)
  : ConversationBuffer :=
  {| utterances := utterances b;
     max_duration := max_duration b;
     suggestion_cooldown := suggestion_cooldown b;
     last_suggestion_time := Some now;
     _pending_interim := _pending_interim b |}.

(** [clear]. *)
Definition clear (b : ConversationBuffer) : ConversationBuffer :=
  {| utterances := [];
     max_duration := max_duration b;
     suggestion_cooldown := suggestion_cooldown b;
     last_suggestion_time := None;
     _pending_interim := None |}.

(** [get_last_prospect_statement]: scan from the newest utterance. *)
Definition get_last_prospect_statement (b : ConversationBuffer)
  : option string :=
  match
    List.find
      (fun u => String.eqb (speaker u) "prospect" && is_final u)
      (rev (utterances b))
  with
  | Some u => Some (text u)
  | None => None
  end.

(** A Python slice [l[-n:]] for [n <> 0]: the last [n] elements when
    [n > 0]; for [n < 0] it is [l[k:]] with [k = -n]. *)
Definition slice_from_minus {A : Type} (n : Z) (l : list A) : list A :=
  if 0 <? n then skipn (length l - Z.to_nat n) l
  else skipn (Z.to_nat (- n)) l.

Definition render (u : Utterance) : string :=
  title (speaker u) ++ ": " ++ text u.

(** [get_context_string]; [last_n] is [None] when the argument is omitted.
    The test [if last_n:] is false for [None] and for [0]. *)
Definition get_context_string (last_n : option Z) (b : ConversationBuffer)
  : string :=
  let finals := List.filter (fun u => is_final u) (utterances b) in
  let selected :=
    match last_n with
    | None => finals
    | Some n => if n =? 0 then finals else slice_from_minus n finals
    end in
  join_lines (map render selected).

End ContextManager.
Import ContextManager.

(** ** config.py: the system prompt *)

Module Config.

Definition PRODUCT_NAME : string := "Acme CRM Pro".

Definition PRODUCT_DESCRIPTION : string :=
  join_lines
    [ "Enterprise CRM solution with AI-powered lead scoring,";
      "automated follow-ups, and deep analytics integration. Designed for";
      "mid-market B2B companies with 50-500 employees." ].

(** [PRODUCT_CONTEXT["pricing"]] as (tier, price) pairs. *)
Definition PRICING : list (string * string) :=
  [ ("Starter", "$50/user/month");
    ("Professional", "$100/user/month");
    ("Enterprise", "Custom pricing") ].

Definition VALUE_PROPOSITIONS : list string :=
  [ "Reduces manual data entry by 80%";
    "Increases sales team productivity by 35%";
    "Integrates with 200+ tools out of the box";
    "Implementation in under 2 weeks";
    "24/7 customer support included" ].

(** [SYSTEM_PROMPT_TEMPLATE.format(...)], the template with its six
    fields filled in. *)
Definition format_template (product_name product_description pricing_info
    value_props conversation_transcript last_prospect_statement : string)
  : string :=
  join_lines
    [ "You are a real-time sales assistant helping a salesperson during a live call.";
      EmptyString;
      "## Your Role";
      "- Provide 2-3 concise response suggestions when the prospect raises objections or asks questions";
      "- Keep suggestions brief (1-2 sentences each) so they can be quickly read";
      "- Focus on overcoming objections and moving the conversation forward";
      "- Match the tone to the conversation (professional but natural)";
      EmptyString;
      "## Product/Service Context";
      "Product: " ++ product_name;
      product_description;
      EmptyString;
      "Pricing:";
      pricing_info;
      EmptyString;
      "## Key Value Propositions";
      value_props;
      EmptyString;
      "## Current Conversation";
      conversation_transcript;
      EmptyString;
      "## Instructions";
      "The prospect just said: "
        ++ String dquote (last_prospect_statement ++ String dquote EmptyString);
      EmptyString;
      "Provide 2-3 response options the salesperson could use. Format as:";
      "1. [Response option 1]";
      "2. [Response option 2]";
      "3. [Response option 3 - optional]";
      EmptyString;
      "Keep each under 30 words. Focus on the most effective response first." ].

(** [get_system_prompt]. *)
Definition get_system_prompt (conversation_transcript last_statement : string)
  : string :=
  let pricing_info :=
    join_lines (map (fun p => "- " ++ fst p ++ ": " ++ snd p) PRICING) in
  let value_props :=
    join_lines (map (fun v => "- " ++ v) VALUE_PROPOSITIONS) in
  format_template PRODUCT_NAME PRODUCT_DESCRIPTION pricing_info value_props
    conversation_transcript last_statement.

End Config.

(** ** llm_generator.py: the suggestion generator *)

Module LlmGenerator.

(** The separator class of the pattern: full stop, closing parenthesis,
    colon, hyphen. *)
Definition is_marker_separator (c : ascii) : bool :=
  let n := nat_of_ascii c in
  ((n =? 46) || (n =? 41) || (n =? 58) || (n =? 45))%nat.

(** [re.match(pattern, line)] for the pattern of [_parse_suggestions],
    start of line, white space, digits (group 1), one separator, white
    space, at least one character (group 2), end of line, on a [line]
    without newline (the lines come from a split at newlines). The result
    is group 2. Every repetition is greedy; the only place where the
    matcher can give a character back is the white space before group 2,
    when nothing follows it. *)
Definition match_numbered (line : list ascii) : option (list ascii) :=
  let l1 := dropwhile isspace line in
  match takewhile isdigit l1 with
  | [] => None
  | _ :: _ =>
      match dropwhile isdigit l1 with
      | [] => None
      | sep :: l3 =>
          if is_marker_separator sep then
            match dropwhile isspace l3 with
            | (_ :: _) as body => Some body
            | [] =>
                match rev l3 with
                | [] => None
                | c :: _ => Some [c]
                end
            end
          else None
      end
  end.

(** The quote removal of [_parse_suggestions]: one pair of surrounding
    equal quotes is cut, then every leading and trailing quote character. *)
Definition unquote (suggestion : string) : string :=
  let s1 :=
    if (startswith dquote suggestion && endswith dquote suggestion)
       || (startswith squote suggestion && endswith squote suggestion)
    then slice_1_m1 suggestion
    else suggestion in
  strip_quotes s1.

(** The body of the loop of [_parse_suggestions] for one line: the item
    the line adds to [suggestions], if any. *)
Definition parse_line (line : string) : option string :=
  let line := strip line in
  match chars line with
  | [] => None
  | _ :: _ =>
      match match_numbered (chars line) with
      | None => None
      | Some group2 =>
          let suggestion := unquote (strip (str group2)) in
          if negb (String.eqb suggestion EmptyString)
             && (5 <? len suggestion)
          then Some suggestion
          else None
      end
  end.

Fixpoint collect (lines : list string) : list string :=
  match lines with
  | [] => []
  | line :: rest =>
      match parse_line line with
      | Some suggestion => suggestion :: collect rest
      | None => collect rest
      end
  end.

(** [_parse_suggestions]. *)
Definition _parse_suggestions (response : string) : list string :=
  let lines := split_lines (strip response) in
  firstn 3 (collect lines).

(** One block of [response.content]: a text block has a [text]
    attribute, the other block kinds have none. *)
Inductive content_block : Type :=
  | TextBlock (text : string)
  | ToolUseBlock.

(** What [self._client.messages.create(...)] does: it raises, or it
    returns a response holding a list of content blocks. *)
Inductive api_outcome : Type :=
  | ApiRaises (e : py_exception)
  | ApiReturns (content : list content_block).

(** The keyword arguments of [messages.create] that depend on the call. *)
Record request : Type := {
  system : string;
  user_content : string
}.

Definition client : Type := request -> api_outcome.

Definition messages_create (c : client) (r : request)
  : py_result (list content_block) :=
  match c r with
  | ApiRaises e => Raise e
  | ApiReturns content => Ok content
  end.

(** [response.content[0].text]. *)
Definition first_text (content : list content_block) : py_result string :=
  match content with
  | [] => Raise IndexError
  | TextBlock t :: _ => Ok t
  | ToolUseBlock :: _ => Raise AttributeError
  end.

(** The truth value of a string: [not s] holds of the empty string only. *)
Definition falsy (s : string) : bool := String.eqb s EmptyString.

(** [generate_sync] ([generate] has the same body). *)
Definition generate_sync (c : client)
    (conversation_context last_statement : string)
  : py_result (list string) :=
  if falsy last_statement || falsy (strip last_statement) then Ok []
  else
    let system_prompt :=
      Config.get_system_prompt conversation_context last_statement in
    try_except
      (let! content :=
         messages_create c
           {| system := system_prompt;
              user_content := "Generate response suggestions now." |} in
       let! raw_response := first_text content in
       let suggestions := _parse_suggestions raw_response in
       Ok suggestions)
      [ (isinstance_APIError, fun _ => Ok []);
        (isinstance_Exception, fun _ => Ok []) ].

End LlmGenerator.
Import LlmGenerator.

(** ** websocket_server.py: the distribution hub *)

Module WebsocketServer.

(** A client connection, named by the identity of its
    [WebSocketServerProtocol] object. *)
Definition connection : Type := nat.

(** The message dataclasses handed to [broadcast]. [AudioLevelMessage],
    whose level is a float, is left out. *)
Inductive message : Type :=
  | TranscriptMessage (text speaker : string) (is_final : bool)
  | SuggestionsMessage (items : list string)
  | StatusMessage (listening connected transcribing : bool).

(** [class WebSocketServer], the part [broadcast] works on. *)
Record WebSocketServer : Type := {
  _clients : gset connection
}.

(** One call of [client.send(data)] as the wire saw it: the connection,
    the payload and whether the call returned. *)
Record send_call : Type := {
  sc_client : connection;
  sc_data : string;
  sc_returned : bool
}.

Section Broadcast.

(** [json.dumps(asdict(message))]. *)
Variable json_dumps : message -> string.

(** [client.send(data)]: it returns, or it raises. *)
Variable send : connection -> string -> py_result unit.

(** Whether [client.send(data)] returns. *)
Definition send_returns (client : connection) (data : string) : bool :=
  match send client data with
  | Ok _ => true
  | Raise _ => false
  end.

(** What other tasks do to the live set while a send of the broadcast
    is suspended: nothing; or they register connections ([_register]
    adds them); or they remove connections ([_unregister], or the
    clean-up of another broadcast, discards them). A send during which
    connections are both added and removed is not modelled. *)
Inductive meanwhile : Type :=
  | Quiet
  | Registered (cs : gset connection)
  | Unregistered (cs : gset connection).

Definition interfere (m : meanwhile) (clients : gset connection)
  : gset connection :=
  match m with
  | Quiet => clients
  | Registered cs => clients ∪ cs
  | Unregistered cs => clients ∖ cs
  end.

(** No other task changes the live set [clients] during the broadcast. *)
Definition undisturbed (clients : gset connection)
    (schedule : list meanwhile) : Prop :=
  Forall (fun m => interfere m clients = clients) schedule.

(** The state of the loop of [broadcast]: the live set [self._clients]
    the loop iterates, the local list [failed_clients] and the calls of
    [send] made so far. *)
Record loop_state : Type := {
  live : gset connection;
  failed_clients : list connection;
  wire : list send_call
}.

(** One iteration: [try: await client.send(data)] with its two [except]
    clauses. The result tells whether the send returned. *)
Definition try_send (client : connection) (data : string) : py_result bool :=
  try_except
    (let! _ := send client data in Ok true)
    [ (isinstance_ConnectionClosed, fun _ => Ok false);
      (isinstance_Exception, fun _ => Ok false) ].

(** The loop [for client in self._clients]. The iterator was created
    when the set had [used] elements and still has [remaining] to yield,
    in the order of [elements]; each time it is asked for the next client
    it first raises [RuntimeError] if the set has another size by now.
    The head of [schedule] is what other tasks do while the send of this
    iteration is suspended; an exhausted schedule is quiet. *)
Fixpoint send_loop (data : string) (used : nat)
    (remaining : list connection) (schedule : list meanwhile)
    (st : loop_state) : loop_state * py_result unit :=
  match remaining with
  | [] =>
      if (size (live st) =? used)%nat then (st, Ok tt)
      else (st, Raise RuntimeError)
  | client :: rest =>
      if (size (live st) =? used)%nat then
        let call returned :=
          {| sc_client := client; sc_data := data;
             sc_returned := returned |} in
        match try_send client data with
        | Ok returned =>
            let failed :=
              if returned then failed_clients st
              else (failed_clients st ++ [client])%list in
            let (m, later) :=
              match schedule with
              | [] => (Quiet, [])
              | m :: later => (m, later)
              end in
            send_loop data used rest later
              {| live := interfere m (live st);
                 failed_clients := failed;
                 wire := (wire st ++ [call returned])%list |}
        | Raise e =>
            ({| live := live st;
                failed_clients := failed_clients st;
                wire := (wire st ++ [call false])%list |}, Raise e)
        end
      else (st, Raise RuntimeError)
  end.

(** The clean-up loop: [self._clients.discard(client)] for each failed
    client. *)
Definition discard_all (failed : list connection) (clients : gset connection)
  : gset connection :=
  fold_left (fun cs c => cs ∖ {[c]}) failed clients.

(** [broadcast]: the server afterwards, the calls of [send] it made and
    how it ended. The clean-up runs only when the loop ended without
    raising. *)
Definition broadcast (schedule : list meanwhile) (msg : message)
    (srv : WebSocketServer)
  : WebSocketServer * list send_call * py_result unit :=
  if decide (_clients srv = ∅) then (srv, [], Ok tt)
  else
    let data := json_dumps msg in
    match
      send_loop data (size (_clients srv)) (elements (_clients srv)) schedule
        {| live := _clients srv; failed_clients := []; wire := [] |}
    with
    | (st, Ok _) =>
        ({| _clients := discard_all (failed_clients st) (live st) |},
         wire st, Ok tt)
    | (st, Raise e) => ({| _clients := live st |}, wire st, Raise e)
    end.

End Broadcast.

End WebsocketServer.
Import WebsocketServer.

(** ** transcription.py: the transcript result *)

Module Transcription.

(** [class TranscriptResult], without its confidence and timing fields. *)
Record TranscriptResult : Type := {
  text : string;
  speaker : Z;
  is_final : bool
}.

End Transcription.

(** ** main.py: the sales assistant on the asyncio event loop

    The event loop runs one coroutine at a time and switches only where a
    coroutine awaits something that is not ready.  Each definition below
    is one such atomic stretch of a coroutine of [SalesAssistant]; [step]
    lets the loop interleave the stretches of all the tasks. *)

Module Main.

(** [asyncio.Lock]: the flag and the number of coroutines waiting in
    [acquire]. *)
Record Lock : Type := {
  _locked : bool;
  _waiters : nat
}.

Definition locked (l : Lock) : bool := _locked l.

(** [Lock.acquire]: a free lock nobody waits for is taken at once, without
    suspending; otherwise the caller joins the waiters and suspends. *)
Definition acquire (l : Lock) : Lock * bool :=
  if negb (_locked l) && (_waiters l =? 0)%nat
  then ({| _locked := true; _waiters := _waiters l |}, true)
  else ({| _locked := _locked l; _waiters := S (_waiters l) |}, false).

(** [Lock.release], called by the holder when it leaves [async with]. *)
Definition release (l : Lock) : Lock :=
  {| _locked := false; _waiters := _waiters l |}.

(** A waiter woken by [release] resumes inside [acquire] and takes the
    lock. *)
Definition acquire_resume (l : Lock) : Lock :=
  {| _locked := true; _waiters := pred (_waiters l) |}.

(** A call the assistant makes to one of its collaborators. *)
Inductive call : Type :=
  | Generate (context last_statement : string)
      (* run_in_executor(None, generate_sync, context, last_statement) *)
  | Broadcast (m : message).
      (* websocket_server.broadcast(m) *)

(** [class SalesAssistant]: the fields the pipeline works on, and the
    calls made so far. *)
Record SalesAssistant : Type := {
  context_buffer : ConversationBuffer;
  _generation_lock : Lock;
  calls : list call
}.

Definition set_buffer (b : ConversationBuffer) (a : SalesAssistant)
  : SalesAssistant :=
  {| context_buffer := b;
     _generation_lock := _generation_lock a;
     calls := calls a |}.

Definition set_lock (l : Lock) (a : SalesAssistant) : SalesAssistant :=
  {| context_buffer := context_buffer a;
     _generation_lock := l;
     calls := calls a |}.

Definition log_call (c : call) (a : SalesAssistant) : SalesAssistant :=
  {| context_buffer := context_buffer a;
     _generation_lock := _generation_lock a;
     calls := (calls a ++ [c])%list |}.

(** [SalesAssistant.__init__]. *)
Definition new_assistant : SalesAssistant :=
  {| context_buffer := default_buffer;
     _generation_lock := {| _locked := false; _waiters := 0 |};
     calls := [] |}.

(** Where a suspended task of the pipeline waits. *)
Inductive task : Type :=
  | Scheduled (result : Transcription.TranscriptResult)
      (* created by create_task(_process_transcript(result)), not started *)
  | AwaitBroadcastTranscript (result : Transcription.TranscriptResult)
      (* in _process_transcript, at await broadcast_transcript(...) *)
  | AwaitLock
      (* in _generate_suggestions, inside the acquire of async with *)
  | AwaitGeneration (context last_statement : string)
      (* in _generate_suggestions, at await run_in_executor(...) *)
  | AwaitBroadcastSuggestions (items : list string).
      (* in _generate_suggestions, at await broadcast_suggestions(...) *)

(** [_on_transcript]: ingest the fragment; the task it creates is
    returned. *)
Definition _on_transcript (now_created now_pruned : Z)
    (result : Transcription.TranscriptResult) (a : SalesAssistant)
  : SalesAssistant * task :=
  (set_buffer
     (add_transcript now_created now_pruned
        (Transcription.text result) (Transcription.speaker result)
        (Transcription.is_final result) (context_buffer a)) a,
   Scheduled result).

(** The message [_process_transcript] hands to [broadcast_transcript]. *)
Definition transcript_message (result : Transcription.TranscriptResult)
  : message :=
  let speaker_label :=
    if Transcription.speaker result =? 0 then "prospect" else "salesperson" in
  TranscriptMessage (Transcription.text result) speaker_label
    (Transcription.is_final result).

(** [_process_transcript] up to its first await. *)
Definition _process_transcript_start
    (result : Transcription.TranscriptResult) (a : SalesAssistant)
  : SalesAssistant * option task :=
  (log_call (Broadcast (transcript_message result)) a,
   Some (AwaitBroadcastTranscript result)).

(** The body of [async with self._generation_lock] up to the await of
    the executor; the lock is held. *)
Definition _generate_suggestions_locked (a : SalesAssistant)
  : SalesAssistant * option task :=
  match get_last_prospect_statement (context_buffer a) with
  | None => (set_lock (release (_generation_lock a)) a, None)
  | Some last_statement =>
      if falsy last_statement
      then (set_lock (release (_generation_lock a)) a, None)
      else
        let context := get_context_string (Some 10) (context_buffer a) in
        (log_call (Generate context last_statement) a,
         Some (AwaitGeneration context last_statement))
  end.

(** [_generate_suggestions] from its call to its first suspension. *)
Definition _generate_suggestions (a : SalesAssistant)
  : SalesAssistant * option task :=
  if locked (_generation_lock a) then (a, None)
  else
    let (l, acquired) := acquire (_generation_lock a) in
    if acquired then _generate_suggestions_locked (set_lock l a)
    else (set_lock l a, Some AwaitLock).

(** [_process_transcript] after [broadcast_transcript] returned; [now] is
    the clock reading of [should_trigger_ai], which is only called for a
    final result. *)
Definition _process_transcript_resume (now : Z)
    (result : Transcription.TranscriptResult) (a : SalesAssistant)
  : SalesAssistant * option task :=
  if Transcription.is_final result then
    match should_trigger_ai now (context_buffer a) with
    | Ok true => _generate_suggestions a
    | Ok false => (a, None)
    | Raise _ => (a, None)
    end
  else (a, None).

(** [_generate_suggestions] after the executor returned [outcome], up to
    the await of [broadcast_suggestions]; [now] is the clock reading of
    [mark_suggestion_sent]. *)
Definition _generate_suggestions_resume (now : Z)
    (outcome : py_result (list string)) (a : SalesAssistant)
  : SalesAssistant * option task :=
  match outcome with
  | Raise _ => (set_lock (release (_generation_lock a)) a, None)
  | Ok [] => (set_lock (release (_generation_lock a)) a, None)
  | Ok ((_ :: _) as suggestions) =>
      let a1 :=
        set_buffer (mark_suggestion_sent now (context_buffer a)) a in
      (log_call (Broadcast (SuggestionsMessage suggestions)) a1,
       Some (AwaitBroadcastSuggestions suggestions))
  end.

(** [_generate_suggestions] after [broadcast_suggestions] returned or
    raised: [async with] releases the lock. *)
Definition _generate_suggestions_finish (a : SalesAssistant)
  : SalesAssistant * option task :=
  (set_lock (release (_generation_lock a)) a, None).

(** The next atomic stretch of a task; [now] is the clock reading it
    takes and [c] the behaviour of the API during the call that ended. *)
Definition run_task (now : Z) (c : client) (t : task) (a : SalesAssistant)
  : SalesAssistant * option task :=
  match t with
  | Scheduled result => _process_transcript_start result a
  | AwaitBroadcastTranscript result => _process_transcript_resume now result a
  | AwaitLock =>
      _generate_suggestions_locked
        (set_lock (acquire_resume (_generation_lock a)) a)
  | AwaitGeneration context last_statement =>
      _generate_suggestions_resume now
        (generate_sync c context last_statement) a
  | AwaitBroadcastSuggestions _ => _generate_suggestions_finish a
  end.

(** A task waiting for the lock runs only once the lock is free. *)
Definition runnable (t : task) (a : SalesAssistant) : bool :=
  match t with
  | AwaitLock => negb (locked (_generation_lock a))
  | _ => true
  end.

(** The assistant together with the tasks of the event loop. *)
Record event_loop : Type := {
  app : SalesAssistant;
  tasks : list task
}.

Definition start : event_loop := {| app := new_assistant; tasks := [] |}.

Definition option_list {A : Type} (o : option A) : list A :=
  match o with
  | Some x => [x]
  | None => []
  end.

Inductive step : event_loop -> event_loop -> Prop :=
  | step_on_transcript (now_created now_pruned : Z)
      (result : Transcription.TranscriptResult) (w : event_loop) :
      step w
        {| app := fst (_on_transcript now_created now_pruned result (app w));
           tasks :=
             (tasks w
              ++ [snd (_on_transcript now_created now_pruned result (app w))])%list |}
  | step_clear_buffer (w : event_loop) :
      step w
        {| app := set_buffer (clear (context_buffer (app w))) (app w);
           tasks := tasks w |}
  | step_task (now : Z) (c : client) (t : task) (pre post : list task)
      (w : event_loop) :
      tasks w = (pre ++ t :: post)%list ->
      runnable t (app w) = true ->
      step w
        {| app := fst (run_task now c t (app w));
           tasks :=
             (pre ++ option_list (snd (run_task now c t (app w))) ++ post)%list |}.

Inductive reachable : event_loop -> Prop :=
  | reachable_start : reachable start
  | reachable_step (w w' : event_loop) :
      reachable w -> step w w' -> reachable w'.

Definition is_generation (t : task) : bool :=
  match t with
  | AwaitGeneration _ _ => true
  | _ => false
  end.

(** The generation requests in flight. *)
Definition outstanding (w : event_loop) : nat :=
  length (List.filter is_generation (tasks w)).

(** The tasks inside [async with self._generation_lock]. *)
Definition holds_lock (t : task) : bool :=
  match t with
  | AwaitGeneration _ _ | AwaitBroadcastSuggestions _ => true
  | _ => false
  end.

Definition holders (ts : list task) : nat :=
  length (List.filter holds_lock ts).

(** What every reachable state satisfies: nobody waits for the lock, and
    the lock is held exactly when one task is inside [async with]. *)
Definition single_flight_inv (w : event_loop) : Prop :=
  _waiters (_generation_lock (app w)) = 0%nat
  /\ Forall (fun t => t <> AwaitLock) (tasks w)
  /\ holders (tasks w) = (if locked (_generation_lock (app w)) then 1 else 0)%nat.

End Main.
Import Main.

(** ** Runs of the conversation buffer *)

Module Runs.

(** One transcript fragment as the buffer receives it, with the clock
    readings its ingestion takes: [f_created] when the utterance is built
    and, for a final fragment, [f_pruned] when the history is pruned. *)
Record fragment : Type := {
  f_text : string;
  f_speaker : Z;
  f_final : bool;
  f_created : Z;
  f_pruned : Z
}.

Definition ingest (f : fragment) (b : ConversationBuffer)
  : ConversationBuffer :=
  add_transcript (f_created f) (f_pruned f)
    (f_text f) (f_speaker f) (f_final f) b.

Definition ingest_all (fs : list fragment) (b : ConversationBuffer)
  : ConversationBuffer :=
  fold_left (fun b f => ingest f b) fs b.

(** The clock readings a fragment's ingestion takes, in order. *)
Definition clock_readings_of (f : fragment) : list Z :=
  if f_final f then [f_created f; f_pruned f] else [f_created f].

Definition clock_readings (fs : list fragment) : list Z :=
  concat (map clock_readings_of fs).

(** The clock never steps back during the run. *)
Definition clock_monotone (fs : list fragment) : Prop :=
  StronglySorted Z.le (clock_readings fs).

(** The history is in creation order. *)
Definition sorted_by_timestamp (us : list Utterance) : Prop :=
  StronglySorted (fun u v => timestamp u <= timestamp v) us.

(** Every entry was created within the retention window that ends at
    [now]. *)
Definition within_retention (now : Z) (b : ConversationBuffer) : Prop :=
  Forall (fun u => now - microseconds (max_duration b) <= timestamp u)
    (utterances b).

(** Every stored text is trimmed, as [add_transcript] stores it. *)
Definition texts_trimmed (b : ConversationBuffer) : Prop :=
  Forall (fun u => strip (text u) = text u) (utterances b).

(** The operations the pipeline performs on its buffer. *)
Inductive op : Type :=
  | OpIngest (f : fragment)
  | OpMark (now : Z)
  | OpClear.

Definition apply_op (o : op) (b : ConversationBuffer) : ConversationBuffer :=
  match o with
  | OpIngest f => ingest f b
  | OpMark now => mark_suggestion_sent now b
  | OpClear => clear b
  end.

Definition run_ops (os : list op) (b : ConversationBuffer)
  : ConversationBuffer :=
  fold_left (fun b o => apply_op o b) os b.

(** Sample fragments and states. *)
Definition objection : fragment :=
  {| f_text := "That's too expensive for our budget right now";
     f_speaker := 0; f_final := true;
     f_created := 0; f_pruned := 0 |}.

Definition interim_reply : fragment :=
  {| f_text := "well"; f_speaker := 1; f_final := false;
     f_created := 1000000; f_pruned := 1000000 |}.

Definition operator_reply : fragment :=
  {| f_text := "Let me walk you through the numbers";
     f_speaker := 1; f_final := true;
     f_created := 1000000; f_pruned := 1000001 |}.

Definition late_interim : fragment :=
  {| f_text := "well"; f_speaker := 1; f_final := false;
     f_created := 200000000; f_pruned := 200000000 |}.

Definition late_final : fragment :=
  {| f_text := "Let me walk you through the numbers";
     f_speaker := 1; f_final := true;
     f_created := 200000000; f_pruned := 200000001 |}.

Definition objection_result : Transcription.TranscriptResult :=
  {| Transcription.text := "That's too expensive for our budget right now";
     Transcription.speaker := 0;
     Transcription.is_final := true |}.

(** The API answers every request with two numbered lines. *)
Definition two_line_client : client :=
  fun _ =>
    ApiReturns
      [TextBlock
         (join_lines ["1. Ask about ROI"; "2. Offer a pilot"])].

(** The loop after the objection was received. *)
Definition loop_received : event_loop :=
  {| app := fst (_on_transcript 0 0 objection_result (app start));
     tasks :=
       (tasks start
        ++ [snd (_on_transcript 0 0 objection_result (app start))])%list |}.

(** The loop after its transcript was handed to the hub. *)
Definition loop_broadcasting : event_loop :=
  {| app :=
       fst (run_task 0 two_line_client (Scheduled objection_result)
              (app loop_received));
     tasks :=
       ([] ++ option_list
                (snd (run_task 0 two_line_client (Scheduled objection_result)
                        (app loop_received))) ++ [])%list |}.

(** The loop once the generation request is in flight. *)
Definition loop_generating : event_loop :=
  {| app :=
       fst (run_task 1 two_line_client
              (AwaitBroadcastTranscript objection_result)
              (app loop_broadcasting));
     tasks :=
       ([] ++ option_list
                (snd (run_task 1 two_line_client
                        (AwaitBroadcastTranscript objection_result)
                        (app loop_broadcasting))) ++ [])%list |}.

(** Three live connections, of which the second is closed: its [send]
    raises. *)
Definition three_clients : WebSocketServer :=
  {| _clients := {[1%nat; 2%nat; 3%nat]} |}.

Definition flaky_send (c : connection) (data : string) : py_result unit :=
  if (c =? 2)%nat then Raise ConnectionClosed else Ok tt.

(** A stand-in for the serialiser: the kind of the message. *)
Definition kind_of (m : message) : string :=
  match m with
  | TranscriptMessage _ _ _ => "transcript"
  | SuggestionsMessage _ => "suggestions"
  | StatusMessage _ _ _ => "status"
  end.

End Runs.
Import Runs.

(** ** context_manager.py: the queries of the buffer *)

Module BufferQueries.

(** [get_current_text]: the pending interim wins over the history. An
    [Utterance] object is always true, so [if self._pending_interim:]
    tests that it is there. *)
Definition get_current_text (b : ConversationBuffer) : option string :=
  match _pending_interim b with
  | Some u => Some (text u)
  | None =>
      match last (utterances b) with
      | Some u => Some (text u)
      | None => None
      end
  end.

(** [get_current_speaker]. *)
Definition get_current_speaker (b : ConversationBuffer) : option string :=
  match _pending_interim b with
  | Some u => Some (speaker u)
  | None =>
      match last (utterances b) with
      | Some u => Some (speaker u)
      | None => None
      end
  end.

(** [utterance_count]. *)
Definition utterance_count (b : ConversationBuffer) : Z :=
  Z.of_nat (length (utterances b)).

(** [duration_seconds], in microseconds (the source divides the
    difference of the two timestamps by 10^6). *)
Definition duration_microseconds (b : ConversationBuffer) : Z :=
  if (length (utterances b) <? 2)%nat then 0
  else
    match utterances b, last (utterances b) with
    | first :: _, Some newest => timestamp newest - timestamp first
    | _, _ => 0
    end.

(** [c.lower()] for a code point below 256: the letters A-Z and the
    capital letters of Latin-1 (192-222 without the multiplication sign
    215) move up by 32. *)
Definition lower_char (c : ascii) : ascii :=
  let n := nat_of_ascii c in
  if ((65 <=? n) && (n <=? 90)
      || (192 <=? n) && (n <=? 222) && negb (n =? 215))%nat
  then ascii_of_nat (n + 32)
  else c.

(** [s.lower()]. *)
Definition lower (s : string) : string := str (map lower_char (chars s)).

(** [sep.join(l)]. *)
Fixpoint join (sep : string) (l : list string) : string :=
  match l with
  | [] => EmptyString
  | [s] => s
  | s :: l' => s ++ sep ++ join sep l'
  end.

(** [needle in hay] for two strings. *)
Fixpoint contains (needle hay : string) : bool :=
  String.prefix needle hay
  || match hay with
     | EmptyString => false
     | String _ hay' => contains needle hay'
     end.

(** [OBJECTION_TRIGGERS] of config.py. *)
Definition OBJECTION_TRIGGERS : list string :=
  [ "too expensive"; "over budget"; "can't afford"; "too much"; "cost";
    "price"; "cheaper";
    "not the right time"; "too busy"; "next quarter"; "next year";
    "bad timing";
    "think about it"; "get back to you"; "discuss internally"; "need time";
    "consider"; "sleep on it";
    "already using"; "have a solution"; "current provider"; "competitor";
    "salesforce"; "hubspot";
    "check with my"; "need approval"; "not my decision"; "talk to my boss";
    "committee";
    "not sure"; "don't see"; "why would"; "prove it"; "not convinced" ].

(** [l[-3:]]. *)
Definition last_three {A : Type} (l : list A) : list A :=
  skipn (length l - 3) l.

(** The text [check_for_objection] searches: the lower-cased texts of
    the last three utterances, joined by one space. *)
Definition recent_text (b : ConversationBuffer) : string :=
  join " " (map (fun u => lower (text u)) (last_three (utterances b))).

(** [check_for_objection]: the first phrase of the list found in the
    recent text. *)
Definition check_for_objection (b : ConversationBuffer) : option string :=
  List.find (fun phrase => contains phrase (recent_text b)) OBJECTION_TRIGGERS.

(** The test of [get_last_prospect_statement]. *)
Definition final_prospect (u : Utterance) : bool :=
  String.eqb (speaker u) "prospect" && is_final u.

(** The utterance [add_transcript] builds for a fragment. *)
Definition utterance_of (f : fragment) : Utterance :=
  {| speaker := speaker_label (f_speaker f);
     text := strip (f_text f);
     timestamp := f_created f;
     is_final := f_final f |}.

(** A text that parses back from a numbered line as it is: longer than
    5 characters, with neither white space nor a quote at either end. *)
Definition clean_item (t : list ascii) : Prop :=
  (5 < length t)%nat
  /\ (forall c, head t = Some c -> isspace c = false /\ isquote c = false)
  /\ (forall c, last t = Some c -> isspace c = false /\ isquote c = false).

End BufferQueries.
Import BufferQueries.

(** ** websocket_server.py: registration of a client *)

Module Hub.

Section Clients.

Variable json_dumps : message -> string.
Variable send : connection -> string -> py_result unit.

(** [_unregister]: [self._clients.discard(websocket)]. *)
Definition _unregister (websocket : connection) (srv : WebSocketServer)
  : WebSocketServer :=
  {| _clients := _clients srv ∖ {[websocket]} |}.

(** [_send_to_client] for a dataclass message: the server afterwards and
    the call of [send] it made. A closed connection is unregistered; any
    other [Exception] is logged and the connection stays. *)
Definition _send_to_client (websocket : connection) (msg : message)
    (srv : WebSocketServer) : py_result (WebSocketServer * list send_call) :=
  let data := json_dumps msg in
  let made returned :=
    [ {| sc_client := websocket; sc_data := data; sc_returned := returned |} ] in
  try_except
    (let! _ := send websocket data in Ok (srv, made true))
    [ (isinstance_ConnectionClosed,
       fun _ => Ok (_unregister websocket srv, made false));
      (isinstance_Exception, fun _ => Ok (srv, made false)) ].

(** [StatusMessage(connected=True)]. *)
Definition initial_status : message := StatusMessage false true false.

(** [_register]: add the client, then send it the initial status; an
    [Exception] out of that send is logged. *)
Definition _register (websocket : connection) (srv : WebSocketServer)
  : py_result (WebSocketServer * list send_call) :=
  let srv1 := {| _clients := _clients srv ∪ {[websocket]} |} in
  try_except
    (_send_to_client websocket initial_status srv1)
    [ (isinstance_Exception,
       fun _ =>
         Ok (srv1,
             [ {| sc_client := websocket;
                  sc_data := json_dumps initial_status;
                  sc_returned := false |} ])) ].

End Clients.

End Hub.
Import Hub.

(** ** transcription.py: the messages of the transcription service *)

Module Deepgram.

(** A parsed message, typed after the schema of the service: [None] is a
    key the message does not have, which [dict.get] answers with its
    default. *)
Record word : Type := {
  w_speaker : option Z
}.

Record alternative : Type := {
  a_transcript : option string;
  a_words : option (list word)
}.

Record channel_data : Type := {
  c_alternatives : option (list alternative)
}.

Record service_message : Type := {
  m_type : option string;
  m_channel : option channel_data;
  m_is_final : option bool
}.

Definition get {A : Type} (field : option A) (default : A) : A :=
  match field with
  | Some v => v
  | None => default
  end.

(** [_handle_results]: the result handed to the callback, or [None]
    when the method returns without calling it. *)
Definition _handle_results (data : service_message)
  : option Transcription.TranscriptResult :=
  let channel := get (m_channel data) {| c_alternatives := None |} in
  let alternatives := get (c_alternatives channel) [] in
  match alternatives with
  | [] => None
  | alt :: _ =>
      let transcript := strip (get (a_transcript alt) EmptyString) in
      if falsy transcript then None
      else
        let words := get (a_words alt) [] in
        let speaker :=
          match words with
          | [] => 0
          | w :: _ => get (w_speaker w) 0
          end in
        Some {| Transcription.text := transcript;
                Transcription.speaker := speaker;
                Transcription.is_final := get (m_is_final data) false |}
  end.

(** [_process_message]: only a message of type Results reaches
    [_handle_results]. *)
Definition _process_message (data : service_message)
  : option Transcription.TranscriptResult :=
  match m_type data with
  | Some t => if String.eqb t "Results" then _handle_results data else None
  | None => None
  end.

(** A call to a collaborator that the pipeline can make safely: a
    generation request carries a statement that is neither empty nor
    padded with white space. *)
Definition sound_call (c : call) : Prop :=
  match c with
  | Generate _ last_statement =>
      falsy last_statement = false /\ strip last_statement = last_statement
  | Broadcast _ => True
  end.

(** The fragment [_on_transcript] ingests for a result. *)
Definition fragment_of (now_created now_pruned : Z)
    (result : Transcription.TranscriptResult) : fragment :=
  {| f_text := Transcription.text result;
     f_speaker := Transcription.speaker result;
     f_final := Transcription.is_final result;
     f_created := now_created;
     f_pruned := now_pruned |}.

(** A message of the service without diarization words. *)
Definition plain_message : service_message :=
  {| m_type := Some "Results";
     m_channel :=
       Some {| c_alternatives :=
                 Some [ {| a_transcript := Some "  not sure about that ";
                           a_words := None |} ] |};
     m_is_final := None |}.

(** A send that fails with an exception other than a closed connection. *)
Definition broken_send (c : connection) (data : string) : py_result unit :=
  if (c =? 2)%nat then Raise OSError else Ok tt.

End Deepgram.
Import Deepgram.

(** ** main.py: the listening session and the client commands *)

Module Session.

(** The flags and fields [_start_listening], [_stop_listening] and
    [_handle_client_message] work on: of the assistant, of its
    [AudioCapture] and of its [DeepgramTranscriber]; and the status
    messages handed to [broadcast_status] so far. *)
Record pipeline : Type := {
  _is_listening : bool;
  audio_is_running : bool;          (* AudioCapture._is_running *)
  transcriber_is_connected : bool;  (* DeepgramTranscriber._is_connected *)
  _audio_task : bool;               (* self._audio_task is not None *)
  buffer : ConversationBuffer;
  statuses : list message
}.

(** What the outside does during the handling of one command: opening
    the audio stream, connecting to the transcription service and
    broadcasting a status each return or raise. Closing the stream and
    the connection is taken not to raise. *)
Record environment : Type := {
  open_stream : py_result unit;
  connect_service : py_result unit;
  broadcast_outcome : py_result unit
}.

(** Code that changes the pipeline and returns or raises. *)
Definition action (A : Type) : Type := pipeline -> pipeline * py_result A.

Definition ret {A : Type} (a : A) : action A := fun p => (p, Ok a).

Definition and_then {A B : Type} (m : action A) (k : A -> action B)
  : action B :=
  fun p =>
    match m p with
    | (p', Ok a) => k a p'
    | (p', Raise e) => (p', Raise e)
    end.

(** [try: body  except Exception as e: handler]. *)
Definition try_except_Exception {A : Type} (body : action A)
    (handler : py_exception -> action A) : action A :=
  fun p =>
    match body p with
    | (p', Ok a) => (p', Ok a)
    | (p', Raise e) =>
        if isinstance_Exception e then handler e p' else (p', Raise e)
    end.

Definition raise {A : Type} (e : py_exception) : action A :=
  fun p => (p, Raise e).

Definition set_listening (v : bool) : action unit :=
  fun p =>
    ({| _is_listening := v;
        audio_is_running := audio_is_running p;
        transcriber_is_connected := transcriber_is_connected p;
        _audio_task := _audio_task p;
        buffer := buffer p;
        statuses := statuses p |}, Ok tt).

Definition set_running (v : bool) : action unit :=
  fun p =>
    ({| _is_listening := _is_listening p;
        audio_is_running := v;
        transcriber_is_connected := transcriber_is_connected p;
        _audio_task := _audio_task p;
        buffer := buffer p;
        statuses := statuses p |}, Ok tt).

Definition set_connected (v : bool) : action unit :=
  fun p =>
    ({| _is_listening := _is_listening p;
        audio_is_running := audio_is_running p;
        transcriber_is_connected := v;
        _audio_task := _audio_task p;
        buffer := buffer p;
        statuses := statuses p |}, Ok tt).

Definition set_audio_task (v : bool) : action unit :=
  fun p =>
    ({| _is_listening := _is_listening p;
        audio_is_running := audio_is_running p;
        transcriber_is_connected := transcriber_is_connected p;
        _audio_task := v;
        buffer := buffer p;
        statuses := statuses p |}, Ok tt).

Definition clear_buffer : action unit :=
  fun p =>
    ({| _is_listening := _is_listening p;
        audio_is_running := audio_is_running p;
        transcriber_is_connected := transcriber_is_connected p;
        _audio_task := _audio_task p;
        buffer := clear (buffer p);
        statuses := statuses p |}, Ok tt).

(** [AudioCapture.start]: nothing when already running; otherwise the
    stream is opened, and [_is_running] is set only if that returns. *)
Definition audio_capture_start (env : environment) : action unit :=
  fun p =>
    if audio_is_running p then (p, Ok tt)
    else
      match open_stream env with
      | Ok _ => set_running true p
      | Raise e => (p, Raise e)
      end.

(** [AudioCapture.stop]. *)
Definition audio_capture_stop : action unit :=
  fun p => if audio_is_running p then set_running false p else (p, Ok tt).

(** [DeepgramTranscriber.connect]. *)
Definition transcriber_connect (env : environment) : action unit :=
  fun p =>
    if transcriber_is_connected p then (p, Ok tt)
    else
      match connect_service env with
      | Ok _ => set_connected true p
      | Raise e => (p, Raise e)
      end.

(** [DeepgramTranscriber.disconnect]. *)
Definition transcriber_disconnect : action unit :=
  fun p =>
    if transcriber_is_connected p then set_connected false p else (p, Ok tt).

(** [websocket_server.broadcast_status(listening, connected,
    transcribing)]. *)
Definition broadcast_status (env : environment)
    (listening connected transcribing : bool) : action unit :=
  fun p =>
    ({| _is_listening := _is_listening p;
        audio_is_running := audio_is_running p;
        transcriber_is_connected := transcriber_is_connected p;
        _audio_task := _audio_task p;
        buffer := buffer p;
        statuses :=
          (statuses p ++ [StatusMessage listening connected transcribing])%list |},
     broadcast_outcome env).

(** [_start_listening]. *)
Definition _start_listening (env : environment) : action unit :=
  fun p =>
    if _is_listening p then (p, Ok tt)
    else
      try_except_Exception
        (and_then (audio_capture_start env) (fun _ =>
         and_then (transcriber_connect env) (fun _ =>
         and_then (set_audio_task true) (fun _ =>
         and_then (set_listening true) (fun _ =>
         broadcast_status env true true true)))))
        (fun e =>
           and_then (set_listening false) (fun _ =>
           and_then audio_capture_stop (fun _ =>
           and_then transcriber_disconnect (fun _ =>
           raise e))))
        p.

(** [_stop_listening]. *)
Definition _stop_listening (env : environment) : action unit :=
  fun p =>
    if negb (_is_listening p) then (p, Ok tt)
    else
      and_then (set_listening false) (fun _ =>
      and_then (set_audio_task false) (fun _ =>
      and_then audio_capture_stop (fun _ =>
      and_then transcriber_disconnect (fun _ =>
      and_then clear_buffer (fun _ =>
      broadcast_status env false true false)))))
        p.

(** The replies of [_handle_client_message]; the message of an error
    reply is [str(e)]. *)
Inductive reply : Type :=
  | Ack (success : bool)
  | ErrorReply (e : py_exception)
  | StatusReply (listening connected transcribing : bool).

(** [_handle_client_message]; [msg_type] is [data.get("type")]. *)
Definition _handle_client_message (env : environment)
    (msg_type : option string) : action (option reply) :=
  match msg_type with
  | Some t =>
      if String.eqb t "start_listening" then
        try_except_Exception
          (and_then (_start_listening env) (fun _ => ret (Some (Ack true))))
          (fun e => ret (Some (ErrorReply e)))
      else if String.eqb t "stop_listening" then
        and_then (_stop_listening env) (fun _ => ret (Some (Ack true)))
      else if String.eqb t "get_status" then
        fun p =>
          (p, Ok (Some (StatusReply (_is_listening p) true
                          (_is_listening p && transcriber_is_connected p))))
      else if String.eqb t "clear_buffer" then
        and_then clear_buffer (fun _ => ret (Some (Ack true)))
      else ret None
  | None => ret None
  end.

(** The pipeline of a new assistant. *)
Definition idle : pipeline :=
  {| _is_listening := false;
     audio_is_running := false;
     transcriber_is_connected := false;
     _audio_task := false;
     buffer := default_buffer;
     statuses := [] |}.

(** The commands of the clients, each with what the outside does while
    it is handled, one after the other. *)
Definition handle_all (commands : list (environment * option string))
    (p : pipeline) : pipeline :=
  fold_left (fun p c => fst (_handle_client_message (fst c) (snd c) p))
    commands p.

(** The outside raises nothing but [Exception]s. *)
Definition raises_exceptions_only (env : environment) : Prop :=
  (forall e, open_stream env = Raise e -> isinstance_Exception e = true)
  /\ (forall e, connect_service env = Raise e -> isinstance_Exception e = true)
  /\ (forall e, broadcast_outcome env = Raise e ->
        isinstance_Exception e = true).

(** The three flags agree. *)
Definition flags_agree (p : pipeline) : Prop :=
  audio_is_running p = _is_listening p
  /\ transcriber_is_connected p = _is_listening p.

Definition all_fine : environment :=
  {| open_stream := Ok tt; connect_service := Ok tt;
     broadcast_outcome := Ok tt |}.

Definition service_down : environment :=
  {| open_stream := Ok tt; connect_service := Raise OSError;
     broadcast_outcome := Ok tt |}.

End Session.
Import Session.

(** ** The reply format the system prompt asks for *)

Module Reply.

(** One numbered line: the digits of the ordinal, the separator, the
    white space after it and the text. *)
Record numbered : Type := {
  n_digits : list ascii;
  n_separator : ascii;
  n_space : list ascii;
  n_text : list ascii
}.

Definition line_of (x : numbered) : string :=
  str (n_digits x ++ n_separator x :: n_space x ++ n_text x).

(** The reply made of the numbered lines, one per line. *)
Definition reply_of (xs : list numbered) : string :=
  join_lines (map line_of xs).

(** A numbered line the parser is meant for: an ordinal of digits, one
    of the four separators, white space and a clean text, with no newline
    inside. *)
Definition well_formed (x : numbered) : Prop :=
  n_digits x <> []
  /\ Forall (fun c => isdigit c = true) (n_digits x)
  /\ is_marker_separator (n_separator x) = true
  /\ Forall (fun c => isspace c = true /\ c <> newline) (n_space x)
  /\ clean_item (n_text x)
  /\ Forall (fun c => c <> newline) (n_text x).

(** The lines of a list of strings as one list of characters, with a
    newline between two lines. *)
Fixpoint interleave (ls : list (list ascii)) : list ascii :=
  match ls with
  | [] => []
  | [l] => l
  | l :: ls' => (l ++ newline :: interleave ls')%list
  end.

Definition first_option : numbered :=
  {| n_digits := chars "1"; n_separator := ascii_of_nat 46;
     n_space := chars " "; n_text := chars "Ask what a delay would cost" |}.

Definition second_option : numbered :=
  {| n_digits := chars "2"; n_separator := ascii_of_nat 41;
     n_space := chars "  "; n_text := chars "Offer a pilot program" |}.

End Reply.
Import Reply.

(** * Properties *)

(** ** Strings *)

Lemma chars_str (l : list ascii) : chars (str l) = l.
Proof. apply list_ascii_of_string_of_list_ascii. Qed.

Lemma dropwhile_stable {A : Type} (p : A -> bool) (l : list A) :
  dropwhile p (dropwhile p l) = dropwhile p l.
Proof.
  induction l as [|x l IH]; simpl; [reflexivity|].
  destruct (p x) eqn:Hx; [exact IH|].
  simpl. rewrite Hx. reflexivity.
Qed.

Lemma dropwhile_snoc {A : Type} (p : A -> bool) (l : list A) (x : A) :
  p x = false -> dropwhile p (l ++ [x]) = (dropwhile p l ++ [x])%list.
Proof.
  intros Hx. induction l as [|y l IH]; simpl.
  - rewrite Hx. reflexivity.
  - destruct (p y); [exact IH | reflexivity].
Qed.

Lemma strip_chars_stable (p : ascii -> bool) (l : list ascii) :
  strip_chars p (strip_chars p l) = strip_chars p l.
Proof.
  unfold strip_chars, rstrip_chars, lstrip_chars.
  destruct (dropwhile p l) as [|x m] eqn:Hm; [reflexivity|].
  assert (Hx : p x = false).
  { clear -Hm. induction l as [|y l IH]; simpl in Hm; [discriminate|].
    destruct (p y) eqn:Hy; [auto|]. inversion Hm; subst. exact Hy. }
  assert (E : rev (dropwhile p (rev (x :: m)))
              = x :: rev (dropwhile p (rev m))).
  { simpl. rewrite (dropwhile_snoc p (rev m) x Hx), rev_app_distr.
    reflexivity. }
  rewrite E. simpl dropwhile. rewrite Hx.
  change (rev (x :: rev (dropwhile p (rev m))))
    with (rev (rev (dropwhile p (rev m))) ++ [x])%list.
  rewrite rev_involutive, (dropwhile_snoc p _ x Hx), dropwhile_stable.
  rewrite rev_app_distr. reflexivity.
Qed.

Lemma strip_stable (s : string) : strip (strip s) = strip s.
Proof.
  unfold strip. rewrite chars_str, strip_chars_stable. reflexivity.
Qed.

(** ** The conversation buffer *)

Lemma popleft_while_old_Forall (P : Utterance -> Prop) (cutoff : Z)
    (us : list Utterance) :
  Forall P us -> Forall P (popleft_while_old cutoff us).
Proof.
  induction 1 as [|u us Hu Hus IH]; simpl; [constructor|].
  destruct (timestamp u <? cutoff); [exact IH | constructor; assumption].
Qed.

Lemma popleft_while_old_suffix (cutoff : Z) (us : list Utterance) :
  exists dropped, us = (dropped ++ popleft_while_old cutoff us)%list.
Proof.
  induction us as [|u us [d IH]]; simpl.
  - exists []. reflexivity.
  - destruct (timestamp u <? cutoff).
    + exists (u :: d). simpl. rewrite <- IH. reflexivity.
    + exists []. reflexivity.
Qed.

Lemma apply_op_texts_trimmed (o : op) (b : ConversationBuffer) :
  texts_trimmed b -> texts_trimmed (apply_op o b).
Proof.
  unfold texts_trimmed. intros Hb. destruct o as [f|now|]; simpl.
  - unfold ingest, add_transcript, add. simpl.
    destruct (f_final f); simpl; [|exact Hb].
    apply popleft_while_old_Forall, Forall_app. split; [exact Hb|].
    constructor; [|constructor]. simpl. apply strip_stable.
  - exact Hb.
  - constructor.
Qed.

(** Whatever the pipeline did with a fresh buffer, its texts are trimmed. *)
Lemma run_ops_texts_trimmed (os : list op) (max_duration_seconds cooldown : Z) :
  texts_trimmed (run_ops os (init max_duration_seconds cooldown)).
Proof.
  unfold run_ops.
  assert (H0 : texts_trimmed (init max_duration_seconds cooldown))
    by constructor.
  revert H0. generalize (init max_duration_seconds cooldown).
  induction os as [|o os IH]; intros b Hb; simpl; [exact Hb|].
  apply IH, apply_op_texts_trimmed, Hb.
Qed.

Lemma ingest_keeps_cooldown (f : fragment) (b : ConversationBuffer) :
  last_suggestion_time (ingest f b) = last_suggestion_time b
  /\ suggestion_cooldown (ingest f b) = suggestion_cooldown b
  /\ max_duration (ingest f b) = max_duration b.
Proof.
  unfold ingest, add_transcript, add. simpl.
  destruct (f_final f); simpl; auto.
Qed.

Lemma ingest_all_keeps_cooldown (fs : list fragment) (b : ConversationBuffer) :
  last_suggestion_time (ingest_all fs b) = last_suggestion_time b
  /\ suggestion_cooldown (ingest_all fs b) = suggestion_cooldown b
  /\ max_duration (ingest_all fs b) = max_duration b.
Proof.
  revert b. induction fs as [|f fs IH]; intros b; simpl; [auto|].
  destruct (IH (ingest f b)) as (H1 & H2 & H3).
  destruct (ingest_keeps_cooldown f b) as (G1 & G2 & G3).
  unfold ingest_all in *. simpl. rewrite H1, H2, H3. auto.
Qed.

Lemma should_trigger_ai_in_cooldown (now : Z) (b : ConversationBuffer) :
  in_cooldown now b = true -> should_trigger_ai now b = Ok false.
Proof.
  intros H. unfold should_trigger_ai. rewrite H.
  destruct (utterances b); reflexivity.
Qed.

(** [should_trigger_ai] after its two first tests, on a history whose
    newest entry is [u]. *)
Lemma should_trigger_ai_newest (now : Z) (b : ConversationBuffer)
    (u : Utterance) :
  last (utterances b) = Some u ->
  should_trigger_ai now b =
    Ok (negb (in_cooldown now b)
        && String.eqb (speaker u) "prospect" && is_final u
        && (10 <=? len (text u))).
Proof.
  intros Hu. unfold should_trigger_ai, index_last. rewrite Hu.
  destruct (utterances b) as [|u0 us]; [discriminate|].
  destruct (in_cooldown now b); [reflexivity|]. simpl.
  destruct (String.eqb (speaker u) "prospect"); [|reflexivity].
  destruct (is_final u); [|reflexivity]. simpl.
  destruct (Z.ltb_spec (len (text u)) 10) as [H|H];
    destruct (Z.leb_spec 10 (len (text u))) as [G|G];
    try reflexivity; lia.
Qed.

(** [should_trigger_ai] never raises: the index [-1] is taken of a
    non-empty deque only. *)
Lemma should_trigger_ai_total (now : Z) (b : ConversationBuffer) :
  exists r, should_trigger_ai now b = Ok r.
Proof.
  destruct (last (utterances b)) as [u|] eqn:Hu.
  - rewrite (should_trigger_ai_newest now b u Hu). eauto.
  - apply last_None in Hu. unfold should_trigger_ai. rewrite Hu. eauto.
Qed.

(** C1. [should_trigger_ai] on a buffer whose texts are trimmed: false on
    an empty history; false while less than the cooldown has elapsed
    since [mark_suggestion_sent], whatever fragments were ingested since;
    false when the newest entry is not a final prospect utterance; false
    when its trimmed text has fewer than 10 characters; true otherwise.
    The assistant's cooldown is 5 seconds. *)
Theorem should_trigger_ai_decision (now : Z) (b : ConversationBuffer) :
  texts_trimmed b ->
  (utterances b = [] -> should_trigger_ai now b = Ok false)
  /\ (forall t, last_suggestion_time b = Some t ->
        now - t < suggestion_cooldown b ->
        should_trigger_ai now b = Ok false)
  /\ (forall t fs, now - t < suggestion_cooldown b ->
        should_trigger_ai now (ingest_all fs (mark_suggestion_sent t b))
        = Ok false)
  /\ (forall u, last (utterances b) = Some u ->
        speaker u <> "prospect" \/ is_final u = false ->
        should_trigger_ai now b = Ok false)
  /\ (forall u, last (utterances b) = Some u ->
        len (strip (text u)) < 10 ->
        should_trigger_ai now b = Ok false)
  /\ (forall u, last (utterances b) = Some u ->
        (forall t, last_suggestion_time b = Some t ->
           suggestion_cooldown b <= now - t) ->
        speaker u = "prospect" -> is_final u = true ->
        10 <= len (strip (text u)) ->
        should_trigger_ai now b = Ok true)
  /\ suggestion_cooldown (context_buffer new_assistant) = microseconds 5.
Proof.
  intros Htrim.
  assert (Hstrip : forall u, last (utterances b) = Some u ->
                        strip (text u) = text u).
  { intros u Hu. unfold texts_trimmed in Htrim.
    rewrite Forall_forall in Htrim. apply Htrim.
    apply last_Some_elem_of, Hu. }
  repeat split.
  - intros H. unfold should_trigger_ai. rewrite H. reflexivity.
  - intros t Ht Hlt. apply should_trigger_ai_in_cooldown.
    unfold in_cooldown. rewrite Ht. apply Z.ltb_lt, Hlt.
  - intros t fs Hlt. apply should_trigger_ai_in_cooldown.
    unfold in_cooldown.
    destruct (ingest_all_keeps_cooldown fs (mark_suggestion_sent t b))
      as (-> & -> & _).
    simpl. apply Z.ltb_lt, Hlt.
  - intros u Hu Hor. rewrite (should_trigger_ai_newest now b u Hu).
    destruct Hor as [Hs|Hf].
    + apply String.eqb_neq in Hs. rewrite Hs, andb_false_r. reflexivity.
    + rewrite Hf, andb_false_r. reflexivity.
  - intros u Hu Hlen. rewrite (should_trigger_ai_newest now b u Hu).
    rewrite (Hstrip u Hu) in Hlen.
    apply Z.leb_gt in Hlen. rewrite Hlen, andb_false_r. reflexivity.
  - intros u Hu Hcool Hs Hf Hlen.
    rewrite (should_trigger_ai_newest now b u Hu).
    rewrite (Hstrip u Hu) in Hlen.
    apply String.eqb_eq in Hs. apply Z.leb_le in Hlen.
    rewrite Hs, Hf, Hlen.
    assert (Hc : in_cooldown now b = false).
    { unfold in_cooldown. destruct (last_suggestion_time b) as [t|];
        [|reflexivity].
      apply Z.ltb_ge, Hcool. reflexivity. }
    rewrite Hc. reflexivity.
Qed.

Lemma should_trigger_ai_decision_witness :
  texts_trimmed (ingest objection default_buffer)
  /\ should_trigger_ai 1000000 (ingest objection default_buffer) = Ok true
  /\ should_trigger_ai 4999999
       (ingest_all [late_interim; late_final]
          (mark_suggestion_sent 0 (ingest objection default_buffer)))
     = Ok false.
Proof.
  assert (H : texts_trimmed (ingest objection default_buffer)).
  { vm_compute. constructor; [reflexivity | constructor]. }
  split; [exact H|].
  destruct (should_trigger_ai_decision 1000000 _ H)
    as (_ & _ & _ & _ & _ & Htrue & _).
  destruct (should_trigger_ai_decision 4999999 _ H)
    as (_ & _ & Hcool & _).
  split.
  - apply (Htrue (Build_Utterance "prospect"
                    "That's too expensive for our budget right now" 0 true)).
    + reflexivity.
    + intros t Ht. discriminate Ht.
    + reflexivity.
    + reflexivity.
    + vm_compute. discriminate.
  - apply (Hcool 0 [late_interim; late_final]). reflexivity.
Defined.

(** ** Order and retention of the history *)

Lemma popleft_while_old_sorted (cutoff : Z) (us : list Utterance) :
  sorted_by_timestamp us ->
  sorted_by_timestamp (popleft_while_old cutoff us).
Proof.
  unfold sorted_by_timestamp.
  induction 1 as [|u us Hs IH Hall]; simpl; [constructor|].
  destruct (timestamp u <? cutoff); [exact IH | constructor; assumption].
Qed.

Lemma popleft_while_old_recent (cutoff : Z) (us : list Utterance) :
  sorted_by_timestamp us ->
  Forall (fun u => cutoff <= timestamp u) (popleft_while_old cutoff us).
Proof.
  unfold sorted_by_timestamp.
  induction 1 as [|u us Hs IH Hall]; simpl; [constructor|].
  destruct (Z.ltb_spec (timestamp u) cutoff) as [Hold|Hnew]; [exact IH|].
  constructor; [exact Hnew|].
  eapply Forall_impl; [exact Hall|]. simpl. intros v Hv. lia.
Qed.

Lemma ingest_all_snoc (fs : list fragment) (f : fragment)
    (b : ConversationBuffer) :
  ingest_all (fs ++ [f]) b = ingest f (ingest_all fs b).
Proof. unfold ingest_all. rewrite fold_left_app. reflexivity. Qed.

Lemma clock_readings_snoc (fs : list fragment) (f : fragment) :
  clock_readings (fs ++ [f]) = (clock_readings fs ++ clock_readings_of f)%list.
Proof.
  unfold clock_readings. rewrite map_app, concat_app. simpl.
  rewrite app_nil_r. reflexivity.
Qed.

Lemma utterances_ingest_interim (f : fragment) (b : ConversationBuffer) :
  f_final f = false -> utterances (ingest f b) = utterances b.
Proof.
  intros Hf. unfold ingest, add_transcript, add. simpl. rewrite Hf.
  reflexivity.
Qed.

Lemma utterances_ingest_final (f : fragment) (b : ConversationBuffer) :
  f_final f = true ->
  utterances (ingest f b) =
    popleft_while_old (f_pruned f - microseconds (max_duration b))
      (utterances b
       ++ [ {| speaker := speaker_label (f_speaker f);
               text := strip (f_text f);
               timestamp := f_created f;
               is_final := true |} ])%list.
Proof.
  intros Hf. unfold ingest, add_transcript, add. simpl. rewrite Hf.
  reflexivity.
Qed.

(** Under a clock that never steps back the history stays in creation
    order, and every stored timestamp is a reading taken so far. *)
Lemma ingest_all_history (fs : list fragment) (b0 : ConversationBuffer) :
  utterances b0 = [] ->
  clock_monotone fs ->
  sorted_by_timestamp (utterances (ingest_all fs b0))
  /\ Forall (fun u => timestamp u ∈ clock_readings fs)
       (utterances (ingest_all fs b0)).
Proof.
  intros Hb0. induction fs as [|f fs IH] using rev_ind; intros Hmono.
  - simpl. rewrite Hb0. split; constructor.
  - unfold clock_monotone in Hmono. rewrite clock_readings_snoc in Hmono.
    apply StronglySorted_app in Hmono.
    destruct Hmono as (Hcross & Hfs & Hf).
    destruct (IH Hfs) as [Hsorted Hin]. clear IH.
    rewrite ingest_all_snoc, clock_readings_snoc.
    destruct (f_final f) eqn:Hfinal.
    + rewrite (utterances_ingest_final f _ Hfinal).
      set (u := {| speaker := speaker_label (f_speaker f);
                   text := strip (f_text f);
                   timestamp := f_created f;
                   is_final := true |}).
      assert (Hcreated : f_created f ∈ clock_readings_of f).
      { unfold clock_readings_of. rewrite Hfinal. left. }
      split.
      * apply popleft_while_old_sorted. unfold sorted_by_timestamp.
        apply StronglySorted_app. split; [|split].
        -- intros v w Hv Hw. apply list_elem_of_singleton in Hw. subst w.
           simpl. rewrite Forall_forall in Hin.
           apply (Hcross _ _ (Hin v Hv) Hcreated).
        -- exact Hsorted.
        -- repeat constructor.
      * apply popleft_while_old_Forall, Forall_app. split.
        -- eapply Forall_impl; [exact Hin|]. simpl. intros v Hv.
           apply elem_of_app. left. exact Hv.
        -- constructor; [|constructor]. simpl.
           apply elem_of_app. right. exact Hcreated.
    + rewrite (utterances_ingest_interim f _ Hfinal).
      split; [exact Hsorted|].
      eapply Forall_impl; [exact Hin|]. simpl. intros v Hv.
      apply elem_of_app. left. exact Hv.
Qed.

(** C4, as the code has it. Under a clock that never steps back, after
    each ingest the history is sorted by creation time, and after each
    ingest of a final fragment every entry was created no earlier than the
    retention window before the clock reading of that ingest's pruning.
    An interim ingest replaces the pending interim only: it leaves the
    history as it was, evicting nothing, and does not touch the time of
    the last suggestion. *)
Theorem history_sorted_and_pruned (max_duration_seconds cooldown : Z)
    (fs : list fragment) :
  clock_monotone fs ->
  sorted_by_timestamp
    (utterances (ingest_all fs (init max_duration_seconds cooldown)))
  /\ (forall fs' f, fs = (fs' ++ [f])%list -> f_final f = true ->
        within_retention (f_pruned f)
          (ingest_all fs (init max_duration_seconds cooldown)))
  /\ (forall fs' f, fs = (fs' ++ [f])%list -> f_final f = false ->
        utterances (ingest_all fs (init max_duration_seconds cooldown))
        = utterances (ingest_all fs' (init max_duration_seconds cooldown))
        /\ _pending_interim
             (ingest_all fs (init max_duration_seconds cooldown))
           = Some {| speaker := speaker_label (f_speaker f);
                     text := strip (f_text f);
                     timestamp := f_created f;
                     is_final := false |}
        /\ last_suggestion_time
             (ingest_all fs (init max_duration_seconds cooldown))
           = last_suggestion_time
               (ingest_all fs' (init max_duration_seconds cooldown))).
Proof.
  intros Hmono. split; [|split].
  - apply (ingest_all_history fs (init max_duration_seconds cooldown)
             eq_refl Hmono).
  - intros fs' f -> Hfinal.
    unfold clock_monotone in Hmono. rewrite clock_readings_snoc in Hmono.
    apply StronglySorted_app in Hmono.
    destruct Hmono as (Hcross & Hfs & Hf).
    destruct (ingest_all_history fs' (init max_duration_seconds cooldown)
                eq_refl Hfs) as [Hsorted Hin].
    unfold within_retention. rewrite ingest_all_snoc.
    destruct (ingest_keeps_cooldown f
                (ingest_all fs' (init max_duration_seconds cooldown)))
      as (_ & _ & ->).
    rewrite (utterances_ingest_final f _ Hfinal).
    apply popleft_while_old_recent. unfold sorted_by_timestamp.
    apply StronglySorted_app. split; [|split].
    + intros v w Hv Hw. apply list_elem_of_singleton in Hw. subst w.
      simpl. rewrite Forall_forall in Hin.
      apply (Hcross _ _ (Hin v Hv)).
      unfold clock_readings_of. rewrite Hfinal. left.
    + exact Hsorted.
    + repeat constructor.
  - intros fs' f -> Hfinal. rewrite ingest_all_snoc.
    split; [apply utterances_ingest_interim, Hfinal|].
    unfold ingest, add_transcript, add. simpl. rewrite Hfinal.
    split; reflexivity.
Qed.

Lemma history_sorted_and_pruned_witness :
  clock_monotone [objection; late_final]
  /\ sorted_by_timestamp
       (utterances (ingest_all [objection; late_final] (init 180 5000000)))
  /\ within_retention 200000001
       (ingest_all [objection; late_final] (init 180 5000000))
  /\ clock_monotone [objection; interim_reply]
  /\ utterances (ingest_all [objection; interim_reply] (init 180 5000000))
     = utterances (ingest_all [objection] (init 180 5000000)).
Proof.
  assert (H : clock_monotone [objection; late_final]).
  { unfold clock_monotone. repeat constructor; simpl; lia. }
  assert (G : clock_monotone [objection; interim_reply]).
  { unfold clock_monotone. repeat constructor; simpl; lia. }
  split; [exact H|].
  destruct (history_sorted_and_pruned 180 5000000 _ H) as (Hs & Hr & _).
  destruct (history_sorted_and_pruned 180 5000000 _ G) as (_ & _ & Hi).
  split; [exact Hs|].
  split; [apply (Hr [objection] late_final); reflexivity|].
  split; [exact G|].
  apply (Hi [objection] interim_reply); reflexivity.
Defined.

(** C4 as stated fails: after an interim ingest 200 s after the only
    final one, under a clock that never steps back, the history still
    holds the entry created 200 s ago, outside the 180 s window. *)
Lemma history_stale_after_interim :
  clock_monotone [objection; late_interim]
  /\ map timestamp
       (utterances (ingest_all [objection; late_interim] default_buffer))
     = [0]
  /\ ~ within_retention 200000000
         (ingest_all [objection; late_interim] default_buffer).
Proof.
  split; [|split].
  - unfold clock_monotone. repeat constructor; simpl; lia.
  - reflexivity.
  - unfold within_retention. vm_compute. intros H.
    apply Forall_cons in H. destruct H as [H _]. apply H. reflexivity.
Qed.

(** With a wall clock that steps back between two final ingests the
    history is out of creation order. *)
Lemma history_unsorted_when_clock_steps_back :
  ~ sorted_by_timestamp
      (utterances
         (ingest_all
            [ {| f_text := "first"; f_speaker := 0; f_final := true;
                 f_created := 10; f_pruned := 10 |};
              {| f_text := "second"; f_speaker := 1; f_final := true;
                 f_created := 5; f_pruned := 5 |} ]
            default_buffer)).
Proof.
  unfold sorted_by_timestamp. vm_compute. intros H.
  apply StronglySorted_cons in H. destruct H as [H _].
  apply Forall_cons in H. destruct H as [H _]. apply H. reflexivity.
Qed.

(** ** The trigger outside its call site *)

Lemma last_popleft_while_old_snoc (cutoff : Z) (us : list Utterance)
    (u : Utterance) :
  last (popleft_while_old cutoff (us ++ [u])) = None
  \/ last (popleft_while_old cutoff (us ++ [u])) = Some u.
Proof.
  destruct (popleft_while_old_suffix cutoff (us ++ [u])%list) as [d Hd].
  destruct (last (popleft_while_old cutoff (us ++ [u]))) as [v|] eqn:Hv;
    [right | left; reflexivity].
  assert (H : last (us ++ [u])%list = Some v).
  { rewrite Hd, last_app, Hv. reflexivity. }
  rewrite last_snoc in H. symmetry. exact H.
Qed.

Lemma speaker_label_not_zero (speaker_id : Z) :
  speaker_id <> 0 -> speaker_label speaker_id = "salesperson".
Proof.
  intros H. unfold speaker_label.
  destruct (Z.eqb_spec speaker_id 0); [contradiction | reflexivity].
Qed.

(** C8, as the code has it. [should_trigger_ai] never raises. An interim
    ingest does not change its answer, and the pipeline does not evaluate
    it for an interim result. It answers false after a final ingest from
    the salesperson, and after [mark_suggestion_sent] for as long as the
    cooldown has not elapsed. *)
Theorem should_trigger_ai_off_trigger :
  (forall now b, exists r, should_trigger_ai now b = Ok r)
  /\ (forall now f b, f_final f = false ->
        should_trigger_ai now (ingest f b) = should_trigger_ai now b)
  /\ (forall now result a, Transcription.is_final result = false ->
        _process_transcript_resume now result a = (a, None))
  /\ (forall now f b, f_final f = true -> f_speaker f <> 0 ->
        should_trigger_ai now (ingest f b) = Ok false)
  /\ (forall now t b, now - t < suggestion_cooldown b ->
        should_trigger_ai now (mark_suggestion_sent t b) = Ok false).
Proof.
  split; [|split; [|split; [|split]]].
  - apply should_trigger_ai_total.
  - intros now f b Hf. unfold ingest, add_transcript, add. simpl.
    rewrite Hf. reflexivity.
  - intros now result a Hf. unfold _process_transcript_resume.
    rewrite Hf. reflexivity.
  - intros now f b Hf Hs.
    destruct (last (utterances (ingest f b))) as [v|] eqn:Hv.
    + rewrite (should_trigger_ai_newest now _ v Hv).
      rewrite (utterances_ingest_final f b Hf) in Hv.
      destruct (last_popleft_while_old_snoc
                  (f_pruned f - microseconds (max_duration b))
                  (utterances b)
                  {| speaker := speaker_label (f_speaker f);
                     text := strip (f_text f);
                     timestamp := f_created f;
                     is_final := true |}) as [H|H];
        rewrite H in Hv; [discriminate|].
      inversion Hv; subst v. simpl.
      rewrite (speaker_label_not_zero _ Hs). simpl.
      rewrite andb_false_r. reflexivity.
    + apply last_None in Hv. unfold should_trigger_ai. rewrite Hv.
      reflexivity.
  - intros now t b Hlt. apply should_trigger_ai_in_cooldown.
    unfold in_cooldown. simpl. apply Z.ltb_lt, Hlt.
Qed.

Lemma should_trigger_ai_off_trigger_witness :
  should_trigger_ai 1000000 (ingest interim_reply default_buffer)
  = should_trigger_ai 1000000 default_buffer
  /\ should_trigger_ai 2000000
       (ingest operator_reply (ingest objection default_buffer))
     = Ok false
  /\ should_trigger_ai 4999999
       (mark_suggestion_sent 0 (ingest objection default_buffer))
     = Ok false.
Proof.
  destruct should_trigger_ai_off_trigger as (_ & Hi & _ & Ho & Hc).
  split; [|split].
  - apply Hi. reflexivity.
  - apply Ho; [reflexivity | simpl; lia].
  - apply Hc. simpl. lia.
Defined.

(** C8 as stated fails: one second after the prospect's final objection,
    an interim fragment is ingested and [should_trigger_ai] still answers
    true; and it answers true again once the cooldown of an earlier
    trigger on that objection has elapsed. *)
Lemma should_trigger_ai_true_off_trigger :
  should_trigger_ai 1000000
    (ingest interim_reply (ingest objection default_buffer)) = Ok true
  /\ should_trigger_ai 5000000
       (mark_suggestion_sent 0 (ingest objection default_buffer)) = Ok true.
Proof. split; reflexivity. Qed.

(** ** The context string *)

Lemma append_not_empty (s1 s2 : string) :
  s2 <> EmptyString -> (s1 ++ s2)%string <> EmptyString.
Proof.
  intros H. destruct s1; simpl; [exact H | discriminate].
Qed.

Lemma render_not_empty (u : Utterance) : render u <> EmptyString.
Proof. unfold render. apply append_not_empty. discriminate. Qed.

Lemma join_lines_not_empty (s : string) (l : list string) :
  s <> EmptyString -> join_lines (s :: l) <> EmptyString.
Proof.
  intros H. destruct l as [|s' l]; simpl; [exact H|].
  destruct s; [contradiction | discriminate].
Qed.

Lemma skipn_not_nil {A : Type} (k : nat) (l : list A) :
  (k < length l)%nat -> skipn k l <> [].
Proof.
  intros Hk E. pose proof (length_skipn k l) as Hl. rewrite E in Hl.
  simpl in Hl. lia.
Qed.

(** C9, as the code has it. [get_context_string(0)] is
    [get_context_string()]: the rendering of all final utterances, which
    is not the empty string as soon as the history holds a final
    utterance. No argument that is zero or positive asks for zero
    utterances; a negative one whose absolute value is at least the
    number of final utterances renders none. *)
Theorem get_context_string_zero (b : ConversationBuffer) :
  get_context_string (Some 0) b = get_context_string None b
  /\ get_context_string (Some 0) b =
       join_lines
         (map render (List.filter (fun u => is_final u) (utterances b)))
  /\ ((exists u, u ∈ utterances b /\ is_final u = true) ->
        get_context_string (Some 0) b <> EmptyString)
  /\ (forall n, 0 <= n ->
        (exists u, u ∈ utterances b /\ is_final u = true) ->
        get_context_string (Some n) b <> EmptyString)
  /\ (forall n, n < 0 ->
        Z.of_nat
          (length (List.filter (fun u => is_final u) (utterances b))) <= - n ->
        get_context_string (Some n) b = EmptyString).
Proof.
  assert (Hfinals : (exists u, u ∈ utterances b /\ is_final u = true) ->
            List.filter (fun u => is_final u) (utterances b) <> []).
  { intros (u & Hin & Hfin) E.
    assert (Hf : u ∈ List.filter (fun u => is_final u) (utterances b)).
    { apply list_elem_of_In, filter_In. split.
      - apply list_elem_of_In, Hin.
      - exact Hfin. }
    rewrite E in Hf. inversion Hf. }
  assert (Hrender : forall l : list Utterance,
            l <> [] -> join_lines (map render l) <> EmptyString).
  { intros [|v l] Hl; [contradiction|].
    simpl map. apply join_lines_not_empty, render_not_empty. }
  split; [reflexivity|]. split; [reflexivity|]. split; [|split].
  - intros Hex. unfold get_context_string. simpl.
    apply Hrender, Hfinals, Hex.
  - intros n Hn Hex. unfold get_context_string.
    destruct (Z.eqb_spec n 0) as [_|Hn0]; [apply Hrender, Hfinals, Hex|].
    apply Hrender. unfold slice_from_minus.
    destruct (Z.ltb_spec 0 n) as [_|Hle]; [|lia].
    apply skipn_not_nil.
    pose proof (Hfinals Hex) as Hne.
    destruct (List.filter (fun u => is_final u) (utterances b));
      [contradiction | simpl; lia].
  - intros n Hn Hcount. unfold get_context_string.
    destruct (Z.eqb_spec n 0) as [E|_]; [lia|].
    unfold slice_from_minus.
    destruct (Z.ltb_spec 0 n) as [Hpos|_]; [lia|].
    rewrite skipn_all2; [reflexivity | lia].
Qed.

Lemma get_context_string_zero_witness :
  get_context_string (Some 0)
    (ingest operator_reply (ingest objection default_buffer))
  = join_lines
      [ "Prospect: That's too expensive for our budget right now";
        "Salesperson: Let me walk you through the numbers" ]
  /\ get_context_string (Some 0)
       (ingest operator_reply (ingest objection default_buffer))
     <> EmptyString
  /\ get_context_string (Some 1)
       (ingest operator_reply (ingest objection default_buffer))
     <> EmptyString
  /\ get_context_string (Some (-3))
       (ingest operator_reply (ingest objection default_buffer))
     = EmptyString.
Proof.
  assert (Hex : exists u,
            u ∈ utterances
                  (ingest operator_reply (ingest objection default_buffer))
            /\ is_final u = true).
  { exists {| speaker := "prospect";
              text := "That's too expensive for our budget right now";
              timestamp := 0; is_final := true |}.
    split; [|reflexivity].
    vm_compute. left. }
  destruct (get_context_string_zero
              (ingest operator_reply (ingest objection default_buffer)))
    as (_ & Heq & Hne & Hpos & Hneg).
  split; [rewrite Heq; reflexivity|].
  split; [apply Hne, Hex|].
  split; [apply Hpos; [lia | exact Hex]|].
  apply Hneg; [lia | vm_compute; discriminate].
Defined.

(** C9 as stated fails: there is a way to ask for exactly zero
    utterances. With two final utterances in the history,
    [get_context_string(-2)] renders none of them. *)
Lemma get_context_string_negative_empty :
  length
    (List.filter (fun u => is_final u)
       (utterances (ingest operator_reply (ingest objection default_buffer))))
  = 2%nat
  /\ get_context_string (Some (-2))
       (ingest operator_reply (ingest objection default_buffer))
     = EmptyString.
Proof. split; reflexivity. Qed.

(** ** The speaker label *)

(** C10. The label is the prospect's exactly for speaker id 0 and the
    salesperson's for every other id, in the utterance [add_transcript]
    stores (pending for an interim fragment, newest of the history for a
    final one) and in the transcript message [_process_transcript] hands
    to [broadcast]: the first stretch of that coroutine, alone or as a
    task of the event loop, makes exactly that call. *)
Theorem speaker_label_mapping (speaker_id : Z) :
  (speaker_label speaker_id = "prospect" <-> speaker_id = 0)
  /\ (speaker_id <> 0 -> speaker_label speaker_id = "salesperson")
  /\ (forall t1 t2 txt b,
        option_map speaker
          (_pending_interim (add_transcript t1 t2 txt speaker_id false b))
        = Some (speaker_label speaker_id))
  /\ (forall t1 t2 txt b u,
        last (utterances (add_transcript t1 t2 txt speaker_id true b))
        = Some u ->
        speaker u = speaker_label speaker_id)
  /\ (forall txt final,
        transcript_message
          {| Transcription.text := txt;
             Transcription.speaker := speaker_id;
             Transcription.is_final := final |}
        = TranscriptMessage txt (speaker_label speaker_id) final)
  /\ (forall txt final a,
        _process_transcript_start
          {| Transcription.text := txt;
             Transcription.speaker := speaker_id;
             Transcription.is_final := final |} a
        = ({| context_buffer := context_buffer a;
              _generation_lock := _generation_lock a;
              calls :=
                (calls a
                 ++ [Broadcast
                       (TranscriptMessage txt (speaker_label speaker_id)
                          final)])%list |},
           Some
             (AwaitBroadcastTranscript
                {| Transcription.text := txt;
                   Transcription.speaker := speaker_id;
                   Transcription.is_final := final |})))
  /\ (forall txt final now c a,
        calls
          (fst (run_task now c
                  (Scheduled
                     {| Transcription.text := txt;
                        Transcription.speaker := speaker_id;
                        Transcription.is_final := final |}) a))
        = (calls a
           ++ [Broadcast
                 (TranscriptMessage txt (speaker_label speaker_id) final)])%list).
Proof.
  split; [|split; [|split; [|split; [|split; [|split]]]]].
  - unfold speaker_label. destruct (Z.eqb_spec speaker_id 0); split;
      intros H; try reflexivity; try assumption; try discriminate;
      contradiction.
  - apply speaker_label_not_zero.
  - reflexivity.
  - intros t1 t2 txt b u Hu.
    unfold add_transcript, add in Hu. simpl in Hu.
    destruct (last_popleft_while_old_snoc
                (t2 - microseconds (max_duration b)) (utterances b)
                {| speaker := speaker_label speaker_id;
                   text := strip txt;
                   timestamp := t1;
                   is_final := true |}) as [H|H];
      rewrite H in Hu; [discriminate|].
    inversion Hu. reflexivity.
  - reflexivity.
  - reflexivity.
  - reflexivity.
Qed.

Lemma speaker_label_mapping_witness :
  speaker_label 2 = "salesperson"
  /\ option_map speaker
       (last (utterances
                (add_transcript 0 0 "Does it integrate with our stack?" 2 true
                   default_buffer)))
     = Some "salesperson"
  /\ calls
       (fst (run_task 0 two_line_client
               (Scheduled
                  {| Transcription.text := "Does it integrate with our stack?";
                     Transcription.speaker := 2;
                     Transcription.is_final := true |})
               new_assistant))
     = [Broadcast
          (TranscriptMessage "Does it integrate with our stack?"
             "salesperson" true)].
Proof.
  destruct (speaker_label_mapping 2) as (_ & Hne & _ & Hlast & _ & _ & Hrun).
  split; [apply Hne; lia|]. split.
  - destruct (last (utterances
                (add_transcript 0 0 "Does it integrate with our stack?" 2 true
                   default_buffer))) as [u|] eqn:Hu; [|discriminate Hu].
    simpl. rewrite (Hlast _ _ _ _ u Hu). apply f_equal, Hne. lia.
  - rewrite Hrun. reflexivity.
Defined.

(** ** The suggestion parser *)

(** The reply of the specification, two numbered lines and a remark,
    parses to the two suggestions. *)
Lemma parse_suggestions_two_lines :
  _parse_suggestions
    (join_lines ["1. Ask about ROI"; "2. Offer a pilot"; "Notes: ignore this"])
  = ["Ask about ROI"; "Offer a pilot"].
Proof. reflexivity. Qed.

Lemma parse_suggestions_at_most_3 (response : string) :
  (length (_parse_suggestions response) <= 3)%nat.
Proof. unfold _parse_suggestions. apply firstn_le_length. Qed.

Lemma parse_line_long (line suggestion : string) :
  parse_line line = Some suggestion -> 5 < len suggestion.
Proof.
  unfold parse_line. destruct (chars (strip line)); [discriminate|].
  destruct (match_numbered _) as [g|]; [|discriminate].
  destruct (negb _ && (5 <? len (unquote (strip (str g))))) eqn:H;
    [|discriminate].
  intros E. inversion E; subst. apply andb_prop in H. destruct H as [_ H].
  apply Z.ltb_lt, H.
Qed.

Lemma parse_suggestions_long (response : string) :
  Forall (fun s => 5 < len s) (_parse_suggestions response).
Proof.
  unfold _parse_suggestions. generalize (split_lines (strip response)).
  intros lines. apply Forall_take.
  induction lines as [|line lines IH]; simpl; [constructor|].
  destruct (parse_line line) as [s|] eqn:Hs; [|exact IH].
  constructor; [exact (parse_line_long line s Hs) | exact IH].
Qed.

(** C3. A line whose ordinal is followed by a space and a hyphen, one of
    the marker forms the comment on the pattern names, is not recognised:
    the pattern wants the separator right after the digits. The same
    line without the space is kept. *)
Theorem parse_suggestions_spaced_marker :
  match_numbered (chars "1 - Offer a pilot program") = None
  /\ _parse_suggestions "1 - Offer a pilot program" = []
  /\ _parse_suggestions "1- Offer a pilot program" = ["Offer a pilot program"]
  /\ _parse_suggestions
       (join_lines ["1 - Ask about ROI today"; "2 - Offer a pilot program"])
     = [].
Proof. repeat split; reflexivity. Qed.

(** ** The generation call *)

(** C6. Whatever the inputs and whatever the API does, short of raising
    something that is not an [Exception], [generate_sync] returns a list:
    the parsed suggestions when the reply starts with a text block, the
    empty list when the statement is blank, when the call raises and when
    the reply is malformed. *)
Theorem generate_sync_never_raises (c : client)
    (conversation_context last_statement : string) :
  (forall r e, c r = ApiRaises e -> isinstance_Exception e = true) ->
  generate_sync c conversation_context last_statement =
    Ok (if falsy last_statement || falsy (strip last_statement) then []
        else
          match
            c {| system :=
                   Config.get_system_prompt conversation_context last_statement;
                 user_content := "Generate response suggestions now." |}
          with
          | ApiReturns (TextBlock t :: _) => _parse_suggestions t
          | _ => []
          end).
Proof.
  intros Hexc. unfold generate_sync.
  destruct (falsy last_statement || falsy (strip last_statement));
    [reflexivity|].
  unfold messages_create.
  destruct (c _) as [e|content] eqn:Hc; simpl.
  - destruct (isinstance_APIError e); [reflexivity|].
    rewrite (Hexc _ e Hc). reflexivity.
  - destruct content as [|[t|] rest]; reflexivity.
Qed.

Lemma generate_sync_never_raises_witness :
  (forall r e, (fun _ : request => ApiRaises OSError) r = ApiRaises e ->
     isinstance_Exception e = true)
  /\ generate_sync (fun _ => ApiRaises OSError)
       "Prospect: That's too expensive for our budget right now"
       "That's too expensive for our budget right now"
     = Ok [].
Proof.
  assert (H : forall r e,
             (fun _ : request => ApiRaises OSError) r = ApiRaises e ->
             isinstance_Exception e = true).
  { intros r e E. inversion E. reflexivity. }
  split; [exact H|].
  rewrite (generate_sync_never_raises _ _ _ H). reflexivity.
Defined.

(** The other failures: a reply without content, a reply whose first
    block has no text, a reply without numbered lines. *)
Lemma generate_sync_malformed_replies (ctx : string) :
  generate_sync (fun _ => ApiReturns []) ctx "too expensive" = Ok []
  /\ generate_sync (fun _ => ApiReturns [ToolUseBlock]) ctx "too expensive"
     = Ok []
  /\ generate_sync (fun _ => ApiReturns [TextBlock "I cannot help."]) ctx
       "too expensive"
     = Ok [].
Proof. repeat split; reflexivity. Qed.

(** ** After the generation round *)

(** C5. When the executor hands back a batch, the buffer is marked and
    the batch is broadcast if the batch holds an item; an empty batch, or
    an exception, leaves the buffer and the calls as they were, so that
    [should_trigger_ai] answers as before. *)
Theorem mark_iff_items (now : Z) (a : SalesAssistant) (items : list string) :
  (items <> [] ->
     context_buffer (fst (_generate_suggestions_resume now (Ok items) a))
     = mark_suggestion_sent now (context_buffer a)
     /\ last_suggestion_time
          (context_buffer (fst (_generate_suggestions_resume now (Ok items) a)))
        = Some now
     /\ calls (fst (_generate_suggestions_resume now (Ok items) a))
        = (calls a ++ [Broadcast (SuggestionsMessage items)])%list)
  /\ (items = [] ->
        context_buffer (fst (_generate_suggestions_resume now (Ok items) a))
        = context_buffer a
        /\ calls (fst (_generate_suggestions_resume now (Ok items) a))
           = calls a
        /\ forall later,
             should_trigger_ai later
               (context_buffer
                  (fst (_generate_suggestions_resume now (Ok items) a)))
             = should_trigger_ai later (context_buffer a))
  /\ (forall e,
        context_buffer (fst (_generate_suggestions_resume now (Raise e) a))
        = context_buffer a
        /\ calls (fst (_generate_suggestions_resume now (Raise e) a))
           = calls a).
Proof.
  split; [|split].
  - intros Hne. destruct items as [|s items]; [contradiction|].
    simpl. auto.
  - intros ->. simpl. auto.
  - intros e. simpl. auto.
Qed.

Lemma mark_iff_items_witness :
  last_suggestion_time
    (context_buffer
       (fst (_generate_suggestions_resume 7000000
               (Ok ["Ask about ROI"; "Offer a pilot"])
               (app loop_generating))))
  = Some 7000000
  /\ context_buffer
       (fst (_generate_suggestions_resume 7000000 (Ok [])
               (app loop_generating)))
     = context_buffer (app loop_generating).
Proof.
  split.
  - apply (mark_iff_items 7000000 (app loop_generating)
             ["Ask about ROI"; "Offer a pilot"]).
    discriminate.
  - apply (mark_iff_items 7000000 (app loop_generating) []).
    reflexivity.
Defined.

(** ** Single flight *)

Lemma holders_app (l1 l2 : list task) :
  holders (l1 ++ l2) = (holders l1 + holders l2)%nat.
Proof. unfold holders. rewrite List.filter_app, length_app. reflexivity. Qed.

Lemma holders_cons (t : task) (l : list task) :
  holders (t :: l) = ((if holds_lock t then 1 else 0) + holders l)%nat.
Proof. unfold holders. simpl. destruct (holds_lock t); reflexivity. Qed.

Lemma outstanding_le_holders (w : event_loop) :
  (outstanding w <= holders (tasks w))%nat.
Proof.
  unfold outstanding, holders. induction (tasks w) as [|t ts IH]; simpl;
    [lia|].
  destruct t; simpl; lia.
Qed.

(** What [_generate_suggestions] does with a lock nobody waits for. *)
Lemma _generate_suggestions_cases (a : SalesAssistant) :
  _waiters (_generation_lock a) = 0%nat ->
  (locked (_generation_lock a) = true
   /\ _generate_suggestions a = (a, None))
  \/ (locked (_generation_lock a) = false
      /\ snd (_generate_suggestions a) = None
      /\ _generation_lock (fst (_generate_suggestions a))
         = {| _locked := false; _waiters := 0 |})
  \/ (locked (_generation_lock a) = false
      /\ (exists context last_statement,
            snd (_generate_suggestions a)
            = Some (AwaitGeneration context last_statement))
      /\ _generation_lock (fst (_generate_suggestions a))
         = {| _locked := true; _waiters := 0 |}).
Proof.
  intros Hw. unfold _generate_suggestions, locked, acquire.
  destruct (_locked (_generation_lock a)) eqn:Hl; [left; auto|].
  right. rewrite Hw. simpl. unfold _generate_suggestions_locked. simpl.
  destruct (get_last_prospect_statement (context_buffer a)) as [s|];
    [destruct (falsy s)|]; simpl; rewrite ?Hw; eauto 6.
Qed.

Ltac no_waiter :=
  solve [ repeat first [ assumption | discriminate | apply List.Forall_nil
                       | apply Forall_app; split
                       | apply List.Forall_cons ] ].

Ltac close_inv :=
  repeat split;
  first [ assumption | reflexivity | no_waiter | lia
        | match goal with
          | H : _locked _ = _ |- _ => unfold locked; rewrite H; lia
          end
        | unfold holders in *; simpl in *; lia ].

Lemma run_task_preserves (now : Z) (c : client) (t : task)
    (pre post : list task) (w : event_loop) :
  single_flight_inv w ->
  tasks w = (pre ++ t :: post)%list ->
  single_flight_inv
    {| app := fst (run_task now c t (app w));
       tasks :=
         (pre ++ option_list (snd (run_task now c t (app w))) ++ post)%list |}.
Proof.
  intros (Hw & Hno & Hcount) Ht. unfold single_flight_inv. simpl.
  rewrite Ht in Hno, Hcount.
  apply Forall_app in Hno. destruct Hno as [Hpre Hpost].
  apply Forall_cons in Hpost. destruct Hpost as [Hne Hpost].
  rewrite holders_app, holders_cons in Hcount.
  rewrite !holders_app.
  destruct t as [r|r| |ctx stmt|items]; simpl in *.
  - (* the transcript is handed to the hub *)
    rewrite ?holders_cons. close_inv.
  - (* the trigger is evaluated *)
    unfold _process_transcript_resume.
    assert (Hkeep :
      _waiters (_generation_lock (app w)) = 0%nat
      /\ Forall (fun t => t <> AwaitLock) (pre ++ [] ++ post)
      /\ (holders pre + (holders [] + holders post))%nat
         = (if locked (_generation_lock (app w)) then 1 else 0)%nat)
      by close_inv.
    destruct (Transcription.is_final r); [|exact Hkeep].
    destruct (should_trigger_ai now (context_buffer (app w))) as [[|]|e];
      try exact Hkeep.
    destruct (_generate_suggestions_cases (app w) Hw)
      as [[Hl ->] | [(Hl & -> & ->) | (Hl & (ctx & stmt & ->) & ->)]];
      simpl.
    + exact Hkeep.
    + rewrite Hl in Hcount. close_inv.
    + rewrite Hl in Hcount. rewrite ?holders_cons. close_inv.
  - contradiction.
  - (* the executor hands back its outcome *)
    destruct (locked (_generation_lock (app w))) eqn:Hl; [|lia].
    unfold locked in Hl.
    destruct (generate_sync c ctx stmt) as [[|s items]|e]; simpl;
      rewrite ?holders_cons, ?Hl; close_inv.
  - (* the batch was broadcast *)
    destruct (locked (_generation_lock (app w))) eqn:Hl; [|lia].
    close_inv.
Qed.

Lemma step_preserves (w w' : event_loop) :
  single_flight_inv w -> step w w' -> single_flight_inv w'.
Proof.
  intros Hinv Hstep. destruct Hstep as [t1 t2 r w | w | now c t pre post w Ht Hr].
  - destruct Hinv as (Hw & Hno & Hcount). unfold single_flight_inv. simpl.
    rewrite holders_app. close_inv.
  - exact Hinv.
  - apply run_task_preserves; assumption.
Qed.

Lemma reachable_inv (w : event_loop) : reachable w -> single_flight_inv w.
Proof.
  induction 1 as [|w w' Hw IH Hstep].
  - unfold single_flight_inv. simpl. repeat split; constructor.
  - exact (step_preserves w w' IH Hstep).
Qed.

(** C2. In every state the event loop can reach, at most one generation
    request is in flight, no task waits for the lock, and while a request
    is in flight a trigger changes nothing: [_generate_suggestions]
    returns at once, with no call made and nothing left to resume. *)
Theorem single_flight (w : event_loop) :
  reachable w ->
  (outstanding w <= 1)%nat
  /\ _waiters (_generation_lock (app w)) = 0%nat
  /\ Forall (fun t => t <> AwaitLock) (tasks w)
  /\ (outstanding w = 1%nat ->
      _generate_suggestions (app w) = (app w, None)
      /\ forall now result,
           _process_transcript_resume now result (app w) = (app w, None)).
Proof.
  intros Hr. destruct (reachable_inv w Hr) as (Hw & Hno & Hcount).
  pose proof (outstanding_le_holders w) as Hle.
  repeat split; try assumption.
  - destruct (locked (_generation_lock (app w))); lia.
  - unfold _generate_suggestions.
    destruct (locked (_generation_lock (app w))); [reflexivity | lia].
  - intros now result. unfold _process_transcript_resume, _generate_suggestions.
    destruct (Transcription.is_final result); [|reflexivity].
    destruct (should_trigger_ai now (context_buffer (app w))) as [[|]|e];
      try reflexivity.
    destruct (locked (_generation_lock (app w))); [reflexivity | lia].
Qed.

Lemma reachable_loop_generating : reachable loop_generating.
Proof.
  apply (reachable_step loop_broadcasting).
  - apply (reachable_step loop_received).
    + apply (reachable_step start); [constructor|].
      exact (step_on_transcript 0 0 objection_result start).
    + exact (step_task 0 two_line_client (Scheduled objection_result) [] []
               loop_received eq_refl eq_refl).
  - exact (step_task 1 two_line_client
             (AwaitBroadcastTranscript objection_result) [] []
             loop_broadcasting eq_refl eq_refl).
Defined.

Lemma single_flight_witness :
  reachable loop_generating
  /\ outstanding loop_generating = 1%nat
  /\ _generate_suggestions (app loop_generating) = (app loop_generating, None).
Proof.
  split; [exact reachable_loop_generating|].
  split; [reflexivity|].
  apply (single_flight loop_generating reachable_loop_generating).
  reflexivity.
Defined.

(** ** Broadcast *)

Section BroadcastProperties.

Variable json_dumps : message -> string.
Variable send : connection -> string -> py_result unit.

(** One iteration never raises when [send] raises [Exception]s only. *)
Lemma try_send_returns (client : connection) (data : string) :
  (forall e, send client data = Raise e -> isinstance_Exception e = true) ->
  try_send send client data = Ok (send_returns send client data).
Proof.
  intros Hexc. unfold try_send, send_returns.
  destruct (send client data) as [[]|e]; simpl; [reflexivity|].
  destruct (isinstance_ConnectionClosed e); [reflexivity|].
  rewrite (Hexc e eq_refl). reflexivity.
Qed.

Lemma send_loop_result (data : string) (clients : list connection)
    (schedule : list meanwhile) (st : loop_state) :
  (forall c e, send c data = Raise e -> isinstance_Exception e = true) ->
  undisturbed (live st) schedule ->
  send_loop send data (size (live st)) clients schedule st =
    ({| live := live st;
        failed_clients :=
          (failed_clients st
           ++ List.filter (fun c => negb (send_returns send c data)) clients)%list;
        wire :=
          (wire st
           ++ map (fun c => {| sc_client := c; sc_data := data;
                               sc_returned := send_returns send c data |})
                clients)%list |}, Ok tt).
Proof.
  intros Hexc. revert schedule st.
  induction clients as [|c cs IH]; intros schedule st Hquiet; simpl.
  - rewrite Nat.eqb_refl, !app_nil_r. destruct st; reflexivity.
  - rewrite Nat.eqb_refl, (try_send_returns c data (Hexc c)).
    assert (Hnext :
      exists m later,
        match schedule with
        | [] => (Quiet, [])
        | m :: later => (m, later)
        end = (m, later)
        /\ interfere m (live st) = live st
        /\ undisturbed (live st) later).
    { destruct schedule as [|m later].
      - exists Quiet, []. repeat split. constructor.
      - exists m, later. apply Forall_cons in Hquiet. tauto. }
    destruct Hnext as (m & later & -> & Hm & Hlater).
    rewrite Hm.
    match goal with
    | |- send_loop _ _ _ _ _ ?st' = _ =>
        pose proof (IH later st' Hlater) as E
    end.
    cbn [live failed_clients wire] in E. rewrite E.
    destruct (send_returns send c data); simpl;
      rewrite <- ?app_assoc; reflexivity.
Qed.

Lemma elem_of_discard_all (failed : list connection)
    (clients : gset connection) (c : connection) :
  c ∈ discard_all failed clients <-> c ∈ clients /\ c ∉ failed.
Proof.
  unfold discard_all. revert clients.
  induction failed as [|x failed IH]; intros clients; simpl.
  - split; [intros H; split; [exact H | apply not_elem_of_nil] | tauto].
  - rewrite IH, elem_of_difference, elem_of_singleton, not_elem_of_cons.
    tauto.
Qed.

(** What [broadcast] does when no other task changes the live set and
    [send] raises [Exception]s only. *)
Lemma broadcast_result (schedule : list meanwhile) (msg : message)
    (srv : WebSocketServer) :
  undisturbed (_clients srv) schedule ->
  (forall c e, send c (json_dumps msg) = Raise e ->
     isinstance_Exception e = true) ->
  exists srv' sent,
    broadcast json_dumps send schedule msg srv = (srv', sent, Ok tt)
    /\ sent =
         map (fun c => {| sc_client := c; sc_data := json_dumps msg;
                          sc_returned := send_returns send c (json_dumps msg) |})
           (elements (_clients srv))
    /\ (forall c, c ∈ _clients srv' <->
          c ∈ _clients srv /\ send_returns send c (json_dumps msg) = true).
Proof.
  intros Hquiet Hexc. unfold broadcast.
  destruct (decide (_clients srv = ∅)) as [Hempty|Hne].
  - exists srv, []. rewrite Hempty, elements_empty. simpl.
    split; [reflexivity|]. split; [reflexivity|].
    intros c. split.
    + intros Hc. exfalso. exact (not_elem_of_empty c Hc).
    + intros [Hc _]. exact Hc.
  - rewrite (send_loop_result (json_dumps msg) (elements (_clients srv))
               schedule
               {| live := _clients srv; failed_clients := []; wire := [] |}
               Hexc Hquiet).
    simpl. eexists _, _. split; [reflexivity|]. split; [reflexivity|].
    intros c. simpl. rewrite elem_of_discard_all.
    rewrite list_elem_of_In, filter_In, <- list_elem_of_In, elem_of_elements.
    destruct (send_returns send c (json_dumps msg)); simpl; intuition congruence.
Qed.




End BroadcastProperties.



(** * Further properties of the buffer *)

Lemma filter_all_true {A : Type} (f : A -> bool) (l : list A) :
  Forall (fun x => f x = true) l -> List.filter f l = l.
Proof.
  induction 1 as [|x l Hx Hl IH]; simpl; [reflexivity|].
  rewrite Hx, IH. reflexivity.
Qed.

Lemma apply_op_all_final (o : op) (b : ConversationBuffer) :
  Forall (fun u => is_final u = true) (utterances b) ->
  Forall (fun u => is_final u = true) (utterances (apply_op o b)).
Proof.
  intros Hb. destruct o as [f|now|]; simpl.
  - unfold ingest, add_transcript, add. simpl.
    destruct (f_final f) eqn:Hf; simpl; [|exact Hb].
    apply popleft_while_old_Forall, Forall_app. split; [exact Hb|].
    constructor; [reflexivity | constructor].
  - exact Hb.
  - constructor.
Qed.

(** X1. Whatever the pipeline did with a fresh buffer, the history holds
    final utterances only: [utterance_count] counts the final utterances,
    as its docstring says, and [get_context_string()] renders the whole
    history. *)
Theorem history_all_final (os : list op) (max_duration_seconds cooldown : Z) :
  Forall (fun u => is_final u = true)
    (utterances (run_ops os (init max_duration_seconds cooldown)))
  /\ utterance_count (run_ops os (init max_duration_seconds cooldown))
     = Z.of_nat
         (length
            (List.filter (fun u => is_final u)
               (utterances (run_ops os (init max_duration_seconds cooldown)))))
  /\ get_context_string None (run_ops os (init max_duration_seconds cooldown))
     = join_lines
         (map render
            (utterances (run_ops os (init max_duration_seconds cooldown)))).
Proof.
  assert (H : Forall (fun u => is_final u = true)
                (utterances (run_ops os (init max_duration_seconds cooldown)))).
  { unfold run_ops.
    assert (H0 : Forall (fun u => is_final u = true)
                   (utterances (init max_duration_seconds cooldown)))
      by constructor.
    revert H0. generalize (init max_duration_seconds cooldown).
    induction os as [|o os IH]; intros b Hb; simpl; [exact Hb|].
    apply IH, apply_op_all_final, Hb. }
  split; [exact H|]. split.
  - unfold utterance_count.
    rewrite (filter_all_true (fun u => is_final u) _ H). reflexivity.
  - unfold get_context_string.
    rewrite (filter_all_true (fun u => is_final u) _ H). reflexivity.
Qed.

Lemma popleft_while_old_keeps_newest (cutoff : Z) (us : list Utterance)
    (u : Utterance) :
  cutoff <= timestamp u ->
  last (popleft_while_old cutoff (us ++ [u])) = Some u.
Proof.
  intros Hu.
  destruct (last_popleft_while_old_snoc cutoff us u) as [H|H]; [|exact H].
  exfalso. apply last_None in H. revert H.
  induction us as [|v us IH]; simpl.
  - destruct (Z.ltb_spec (timestamp u) cutoff); [lia | discriminate].
  - destruct (timestamp v <? cutoff); [exact IH | discriminate].
Qed.

(** X2. After a fragment is ingested, the current text and speaker are
    those of that fragment: at once for an interim fragment, and for a
    final one unless it is already older than the retention window when
    the history is pruned. *)
Theorem current_text_is_latest (f : fragment) (b : ConversationBuffer) :
  (f_final f = true ->
   f_pruned f - microseconds (max_duration b) <= f_created f) ->
  get_current_text (ingest f b) = Some (strip (f_text f))
  /\ get_current_speaker (ingest f b) = Some (speaker_label (f_speaker f)).
Proof.
  intros Hrecent. unfold get_current_text, get_current_speaker.
  destruct (f_final f) eqn:Hf.
  - rewrite (utterances_ingest_final f b Hf).
    assert (Hp : _pending_interim (ingest f b) = None).
    { unfold ingest, add_transcript, add. simpl. rewrite Hf. reflexivity. }
    rewrite Hp, popleft_while_old_keeps_newest; [split; reflexivity|].
    simpl. apply Hrecent. reflexivity.
  - assert (Hp : _pending_interim (ingest f b) = Some (utterance_of f)).
    { unfold ingest, add_transcript, add, utterance_of. simpl. rewrite Hf.
      reflexivity. }
    rewrite Hp. split; reflexivity.
Qed.

Lemma current_text_is_latest_witness :
  get_current_text (ingest interim_reply (ingest objection default_buffer))
  = Some "well"
  /\ get_current_text (ingest operator_reply (ingest objection default_buffer))
     = Some "Let me walk you through the numbers".
Proof.
  split.
  - apply (current_text_is_latest interim_reply). discriminate.
  - apply (current_text_is_latest operator_reply). intros _.
    vm_compute. discriminate.
Defined.

(** The history of a run lies in one retention window. *)
Lemma ingest_all_window (fs : list fragment) (b0 : ConversationBuffer) :
  utterances b0 = [] ->
  clock_monotone fs ->
  utterances (ingest_all fs b0) = []
  \/ exists p,
       Forall (fun u => p - microseconds (max_duration b0) <= timestamp u
                        /\ timestamp u <= p)
         (utterances (ingest_all fs b0)).
Proof.
  intros Hb0. induction fs as [|f fs IH] using rev_ind; intros Hmono.
  - left. exact Hb0.
  - unfold clock_monotone in Hmono. rewrite clock_readings_snoc in Hmono.
    apply StronglySorted_app in Hmono.
    destruct Hmono as (Hcross & Hfs & Hf).
    destruct (ingest_all_history fs b0 Hb0 Hfs) as [Hsorted Hin].
    rewrite ingest_all_snoc.
    destruct (f_final f) eqn:Hfinal.
    + right. exists (f_pruned f).
      rewrite (utterances_ingest_final f _ Hfinal).
      destruct (ingest_all_keeps_cooldown fs b0) as (_ & _ & ->).
      assert (Hcp : f_created f <= f_pruned f).
      { unfold clock_readings_of in Hf. rewrite Hfinal in Hf.
        apply StronglySorted_cons in Hf. destruct Hf as [Hf _].
        apply Forall_cons in Hf. destruct Hf as [Hf _]. exact Hf. }
      assert (Hpr : f_pruned f ∈ clock_readings_of f).
      { unfold clock_readings_of. rewrite Hfinal. right. left. }
      assert (Hcr : f_created f ∈ clock_readings_of f).
      { unfold clock_readings_of. rewrite Hfinal. left. }
      apply Forall_and. split.
      * apply popleft_while_old_recent. unfold sorted_by_timestamp.
        apply StronglySorted_app. split; [|split].
        -- intros v w Hv Hw. apply list_elem_of_singleton in Hw. subst w.
           simpl. rewrite Forall_forall in Hin.
           apply (Hcross _ _ (Hin v Hv) Hcr).
        -- exact Hsorted.
        -- repeat constructor.
      * apply popleft_while_old_Forall, Forall_app. split.
        -- eapply Forall_impl; [exact Hin|]. simpl. intros v Hv.
           apply (Hcross _ _ Hv Hpr).
        -- constructor; [exact Hcp | constructor].
    + rewrite (utterances_ingest_interim f _ Hfinal). apply IH, Hfs.
Qed.

(** X3. Under a clock that never steps back the buffered duration is
    never negative and never exceeds the retention the buffer was built
    with. *)
Theorem duration_bounded (max_duration_seconds cooldown : Z)
    (fs : list fragment) :
  0 <= max_duration_seconds ->
  clock_monotone fs ->
  0 <= duration_microseconds
         (ingest_all fs (init max_duration_seconds cooldown))
    <= microseconds max_duration_seconds.
Proof.
  intros Hmd Hmono. unfold duration_microseconds.
  destruct (ingest_all_history fs (init max_duration_seconds cooldown)
              eq_refl Hmono) as [Hsorted _].
  destruct (ingest_all_window fs (init max_duration_seconds cooldown)
              eq_refl Hmono) as [Hnil | [p Hp]].
  - rewrite Hnil. simpl. unfold microseconds. lia.
  - simpl in Hp.
    destruct (utterances (ingest_all fs (init max_duration_seconds cooldown)))
      as [|first rest] eqn:Hus.
    + simpl. unfold microseconds. lia.
    + destruct rest as [|second rest].
      * simpl. unfold microseconds. lia.
      * change (length (first :: second :: rest) <? 2)%nat with false.
        destruct (last (first :: second :: rest)) as [newest|] eqn:Hl;
          [|apply last_None in Hl; discriminate].
        assert (Hn : newest ∈ second :: rest).
        { rewrite last_cons_cons in Hl. apply last_Some_elem_of, Hl. }
        unfold sorted_by_timestamp in Hsorted.
        apply StronglySorted_cons in Hsorted. destruct Hsorted as [Hle _].
        rewrite Forall_forall in Hle. specialize (Hle newest Hn).
        rewrite Forall_forall in Hp.
        assert (Hf := Hp first ltac:(left)).
        assert (Hnw := Hp newest ltac:(right; exact Hn)).
        lia.
Qed.

Lemma duration_bounded_witness :
  0 <= duration_microseconds
         (ingest_all [objection; operator_reply] (init 180 5000000))
    <= microseconds 180.
Proof.
  apply duration_bounded; [lia|].
  unfold clock_monotone. repeat constructor; simpl; lia.
Defined.

Lemma find_newest_first {A : Type} (f : A -> bool) (l : list A) :
  match List.find f (rev l) with
  | Some u =>
      exists l1 l2, l = (l1 ++ u :: l2)%list /\ f u = true
                    /\ Forall (fun v => f v = false) l2
  | None => Forall (fun v => f v = false) l
  end.
Proof.
  induction l as [|x l IH] using rev_ind; simpl; [constructor|].
  rewrite rev_app_distr. simpl.
  destruct (f x) eqn:Hx.
  - exists l, []. repeat split; [exact Hx | constructor].
  - destruct (List.find f (rev l)) as [u|].
    + destruct IH as (l1 & l2 & -> & Hu & Hl2).
      exists l1, (l2 ++ [x])%list. rewrite <- app_assoc. simpl.
      repeat split; [exact Hu|].
      apply Forall_app. split; [exact Hl2|].
      constructor; [exact Hx | constructor].
    + apply Forall_app. split; [exact IH|].
      constructor; [exact Hx | constructor].
Qed.

(** X4. [get_last_prospect_statement] answers with the text of the
    newest final prospect utterance of the history: nothing after it is a
    final prospect utterance. It answers [None] exactly when the history
    holds none, and it never looks at the pending interim. *)
Theorem get_last_prospect_statement_newest (b : ConversationBuffer) :
  match get_last_prospect_statement b with
  | Some t =>
      exists older u newer,
        utterances b = (older ++ u :: newer)%list
        /\ final_prospect u = true /\ text u = t
        /\ Forall (fun v => final_prospect v = false) newer
  | None => Forall (fun v => final_prospect v = false) (utterances b)
  end
  /\ forall p,
       get_last_prospect_statement (set_pending_interim p b)
       = get_last_prospect_statement b.
Proof.
  split; [|reflexivity].
  unfold get_last_prospect_statement.
  pose proof (find_newest_first final_prospect (utterances b)) as H.
  unfold final_prospect in *.
  destruct (List.find _ (rev (utterances b))) as [u|].
  - destruct H as (l1 & l2 & Hl & Hu & Hl2). exists l1, u, l2. auto.
  - exact H.
Qed.

Lemma falsy_len (s : string) : falsy s = true -> len s = 0.
Proof.
  unfold falsy. intros H. apply String.eqb_eq in H. subst. reflexivity.
Qed.

Lemma trigger_newest (now : Z) (b : ConversationBuffer) :
  should_trigger_ai now b = Ok true ->
  exists u,
    last (utterances b) = Some u
    /\ get_last_prospect_statement b = Some (text u)
    /\ 10 <= len (text u)
    /\ falsy (text u) = false.
Proof.
  intros Ht.
  destruct (last (utterances b)) as [u|] eqn:Hu.
  - rewrite (should_trigger_ai_newest now b u Hu) in Ht.
    inversion Ht as [Hb]. clear Ht.
    apply andb_prop in Hb. destruct Hb as [Hb Hlen].
    apply andb_prop in Hb. destruct Hb as [Hb Hfin].
    apply andb_prop in Hb. destruct Hb as [_ Hsp].
    apply Z.leb_le in Hlen.
    exists u. split; [reflexivity|]. split; [|split; [exact Hlen|]].
    + apply last_Some in Hu. destruct Hu as [l' Hl].
      unfold get_last_prospect_statement. rewrite Hl, rev_app_distr. simpl.
      rewrite Hsp, Hfin. reflexivity.
    + destruct (falsy (text u)) eqn:Hf; [|reflexivity].
      apply falsy_len in Hf. lia.
  - apply last_None in Hu. unfold should_trigger_ai in Ht.
    rewrite Hu in Ht. discriminate.
Qed.

(** X5. When [should_trigger_ai] answers true, the statement
    [get_last_prospect_statement] returns is the text of the newest
    utterance, of at least 10 characters; so with the lock free the
    trigger of [_process_transcript] takes the lock and issues one
    generation request, for the last 10 utterances and that statement. *)
Theorem trigger_issues_request (now : Z) (a : SalesAssistant)
    (result : Transcription.TranscriptResult) :
  Transcription.is_final result = true ->
  should_trigger_ai now (context_buffer a) = Ok true ->
  _generation_lock a = {| _locked := false; _waiters := 0 |} ->
  exists u,
    last (utterances (context_buffer a)) = Some u
    /\ get_last_prospect_statement (context_buffer a) = Some (text u)
    /\ 10 <= len (text u)
    /\ _process_transcript_resume now result a =
         (log_call
            (Generate (get_context_string (Some 10) (context_buffer a))
               (text u))
            (set_lock {| _locked := true; _waiters := 0 |} a),
          Some
            (AwaitGeneration
               (get_context_string (Some 10) (context_buffer a)) (text u))).
Proof.
  intros Hfin Ht Hlock.
  destruct (trigger_newest now _ Ht) as (u & Hu & Hs & Hlen & Hf).
  exists u. repeat split; try assumption.
  unfold _process_transcript_resume. rewrite Hfin, Ht.
  unfold _generate_suggestions, locked, acquire. rewrite Hlock. simpl.
  unfold _generate_suggestions_locked. simpl. rewrite Hs, Hf. reflexivity.
Qed.

Lemma trigger_issues_request_witness :
  exists u,
    last (utterances (context_buffer (app loop_broadcasting))) = Some u
    /\ snd (_process_transcript_resume 1 objection_result
              (app loop_broadcasting))
       = Some
           (AwaitGeneration
              (get_context_string (Some 10)
                 (context_buffer (app loop_broadcasting)))
              (text u)).
Proof.
  destruct (trigger_issues_request 1 (app loop_broadcasting) objection_result
              eq_refl eq_refl eq_refl) as (u & Hu & _ & _ & Hr).
  exists u. split; [exact Hu|]. rewrite Hr. reflexivity.
Defined.

Lemma apply_op_settings (o : op) (b : ConversationBuffer) :
  max_duration (apply_op o b) = max_duration b
  /\ suggestion_cooldown (apply_op o b) = suggestion_cooldown b.
Proof.
  destruct o as [f|now|]; simpl; auto.
  destruct (ingest_keeps_cooldown f b) as (_ & H1 & H2). auto.
Qed.

Lemma run_ops_settings (os : list op) (b : ConversationBuffer) :
  max_duration (run_ops os b) = max_duration b
  /\ suggestion_cooldown (run_ops os b) = suggestion_cooldown b.
Proof.
  revert b. induction os as [|o os IH]; intros b; simpl; [auto|].
  destruct (IH (apply_op o b)) as [H1 H2].
  destruct (apply_op_settings o b) as [G1 G2].
  unfold run_ops in *. simpl. rewrite H1, H2. auto.
Qed.

(** X6. [clear] forgets everything but the settings: whatever was done
    to the buffer before a [clear], what follows runs as on a buffer
    freshly built with the same retention and cooldown. *)
Theorem clear_forgets (before after : list op) (b : ConversationBuffer) :
  run_ops (before ++ OpClear :: after) b
  = run_ops after (init (max_duration b) (suggestion_cooldown b)).
Proof.
  unfold run_ops. rewrite fold_left_app. simpl. f_equal.
  destruct (run_ops_settings before b) as [H1 H2].
  unfold run_ops in H1, H2. unfold clear, init. rewrite H1, H2. reflexivity.
Qed.

Lemma last_three_app {A : Type} (older recent : list A) :
  length recent = 3%nat -> last_three (older ++ recent) = recent.
Proof.
  intros H. unfold last_three. rewrite length_app, H.
  replace (length older + 3 - 3)%nat with (length older) by lia.
  rewrite skipn_app, skipn_all, Nat.sub_diag. reflexivity.
Qed.

(** X7. [check_for_objection] finds nothing in an empty history; it
    reads the last three utterances only; what it returns is a phrase of
    the list that occurs in their lower-cased texts; and the first phrase
    of the list wins wherever it occurs. *)
Theorem check_for_objection_recent (b : ConversationBuffer) :
  (utterances b = [] -> check_for_objection b = None)
  /\ (forall older u1 u2 u3,
        check_for_objection (set_utterances (older ++ [u1; u2; u3]) b)
        = check_for_objection (set_utterances [u1; u2; u3] b))
  /\ (forall phrase, check_for_objection b = Some phrase ->
        In phrase OBJECTION_TRIGGERS
        /\ contains phrase (recent_text b) = true)
  /\ (check_for_objection b = None ->
        Forall (fun phrase => contains phrase (recent_text b) = false)
          OBJECTION_TRIGGERS)
  /\ (contains "too expensive" (recent_text b) = true ->
        check_for_objection b = Some "too expensive").
Proof.
  split; [|split; [|split; [|split]]].
  - intros H. unfold check_for_objection, recent_text. rewrite H.
    reflexivity.
  - intros older u1 u2 u3. unfold check_for_objection, recent_text. simpl.
    rewrite (last_three_app older [u1; u2; u3] eq_refl). reflexivity.
  - intros phrase H. unfold check_for_objection in H.
    apply find_some in H. exact H.
  - intros H. unfold check_for_objection in H. apply Forall_forall.
    intros phrase Hin. apply list_elem_of_In in Hin.
    exact (find_none _ _ H phrase Hin).
  - intros H. unfold check_for_objection, OBJECTION_TRIGGERS.
    simpl. rewrite H. reflexivity.
Qed.

Lemma check_for_objection_recent_witness :
  check_for_objection
    (ingest operator_reply (ingest objection default_buffer))
  = Some "too expensive".
Proof.
  apply (check_for_objection_recent
           (ingest operator_reply (ingest objection default_buffer))).
  reflexivity.
Defined.

(** * Further properties of the suggestion parser *)

Lemma dropwhile_head {A : Type} (p : A -> bool) (l : list A) (x : A) :
  head (dropwhile p l) = Some x -> p x = false.
Proof.
  induction l as [|y l IH]; simpl; [discriminate|].
  destruct (p y) eqn:Hy; [exact IH|].
  simpl. intros H. inversion H; subst. exact Hy.
Qed.

Lemma dropwhile_fixed {A : Type} (p : A -> bool) (l : list A) :
  (forall x, head l = Some x -> p x = false) -> dropwhile p l = l.
Proof.
  destruct l as [|y l]; simpl; [reflexivity|].
  intros H. rewrite (H y eq_refl). reflexivity.
Qed.

Lemma head_rev {A : Type} (l : list A) : head (rev l) = last l.
Proof.
  induction l as [|x l IH] using rev_ind; [reflexivity|].
  rewrite rev_app_distr, last_snoc. reflexivity.
Qed.

Lemma last_rev {A : Type} (l : list A) : last (rev l) = head l.
Proof. rewrite <- (rev_involutive l) at 2. symmetry. apply head_rev. Qed.

Lemma strip_chars_last (p : ascii -> bool) (l : list ascii) (c : ascii) :
  last (strip_chars p l) = Some c -> p c = false.
Proof.
  unfold strip_chars, rstrip_chars, lstrip_chars.
  rewrite last_rev. apply dropwhile_head.
Qed.

Lemma strip_chars_head (p : ascii -> bool) (l : list ascii) (c : ascii) :
  head (strip_chars p l) = Some c -> p c = false.
Proof.
  unfold strip_chars, rstrip_chars, lstrip_chars.
  destruct (dropwhile p l) as [|x m] eqn:Hm; [discriminate|].
  assert (Hx : p x = false).
  { apply (dropwhile_head p l). rewrite Hm. reflexivity. }
  simpl rev at 2.
  rewrite (dropwhile_snoc p (rev m) x Hx), rev_app_distr. simpl.
  intros H. inversion H; subst. exact Hx.
Qed.

Lemma strip_chars_fixed (p : ascii -> bool) (l : list ascii) :
  (forall c, head l = Some c -> p c = false) ->
  (forall c, last l = Some c -> p c = false) ->
  strip_chars p l = l.
Proof.
  intros Hh Hl. unfold strip_chars, rstrip_chars, lstrip_chars.
  rewrite (dropwhile_fixed p l Hh), dropwhile_fixed, rev_involutive;
    [reflexivity|].
  intros c. rewrite head_rev. apply Hl.
Qed.

Lemma length_str (l : list ascii) : String.length (str l) = length l.
Proof. induction l as [|c l IH]; simpl; [reflexivity | rewrite IH; reflexivity]. Qed.

Lemma unquote_no_quotes (s : string) :
  startswith dquote (unquote s) = false
  /\ startswith squote (unquote s) = false
  /\ endswith dquote (unquote s) = false
  /\ endswith squote (unquote s) = false.
Proof.
  unfold unquote, strip_quotes. cbv zeta.
  match goal with
  | |- context [strip_chars isquote (chars ?x)] => generalize x
  end.
  intros s1. unfold startswith, endswith. rewrite chars_str.
  pose proof (strip_chars_head isquote (chars s1)) as Hh.
  pose proof (strip_chars_last isquote (chars s1)) as Hl.
  rewrite <- head_rev in Hl.
  destruct (strip_chars isquote (chars s1)) as [|x l] eqn:E.
  - repeat split; reflexivity.
  - specialize (Hh x eq_refl). unfold isquote in Hh.
    apply orb_false_elim in Hh. destruct Hh as [Hd Hs].
    destruct (rev (x :: l)) as [|y r]; [repeat split; auto|].
    specialize (Hl y eq_refl). unfold isquote in Hl.
    apply orb_false_elim in Hl. destruct Hl as [Hd' Hs'].
    repeat split; assumption.
Qed.

Lemma parse_line_item (line suggestion : string) :
  parse_line line = Some suggestion ->
  5 < len suggestion
  /\ startswith dquote suggestion = false
  /\ startswith squote suggestion = false
  /\ endswith dquote suggestion = false
  /\ endswith squote suggestion = false.
Proof.
  intros H. split; [exact (parse_line_long line suggestion H)|].
  unfold parse_line in H. destruct (chars (strip line)); [discriminate|].
  destruct (match_numbered _) as [g|]; [|discriminate].
  destruct (negb _ && _); [|discriminate].
  inversion H; subst. apply unquote_no_quotes.
Qed.

(** X8. Whatever the reply, [_parse_suggestions] returns at most three
    items, each longer than 5 characters and with no quote character at
    either end. *)
Theorem parse_suggestions_items (response : string) :
  (length (_parse_suggestions response) <= 3)%nat
  /\ Forall
       (fun s => 5 < len s
                 /\ startswith dquote s = false
                 /\ startswith squote s = false
                 /\ endswith dquote s = false
                 /\ endswith squote s = false)
       (_parse_suggestions response).
Proof.
  split; [apply parse_suggestions_at_most_3|].
  unfold _parse_suggestions. generalize (split_lines (strip response)).
  intros lines. apply Forall_take.
  induction lines as [|line lines IH]; simpl; [constructor|].
  destruct (parse_line line) as [s|] eqn:Hs; [|exact IH].
  constructor; [exact (parse_line_item line s Hs) | exact IH].
Qed.

Lemma isdigit_not_isspace (c : ascii) : isdigit c = true -> isspace c = false.
Proof.
  destruct c as [[] [] [] [] [] [] [] []]; vm_compute; congruence.
Qed.

Lemma separator_not_isdigit (c : ascii) :
  is_marker_separator c = true -> isdigit c = false.
Proof.
  destruct c as [[] [] [] [] [] [] [] []]; vm_compute; congruence.
Qed.

Lemma takewhile_app_stop {A : Type} (p : A -> bool) (d : list A) (x : A)
    (rest : list A) :
  Forall (fun c => p c = true) d -> p x = false ->
  takewhile p (d ++ x :: rest) = d
  /\ dropwhile p (d ++ x :: rest) = x :: rest.
Proof.
  intros Hd Hx. induction Hd as [|c d Hc Hd IH]; simpl.
  - rewrite Hx. auto.
  - rewrite Hc. destruct IH as [-> ->]. auto.
Qed.

Lemma dropwhile_app_all {A : Type} (p : A -> bool) (ws t : list A) :
  Forall (fun c => p c = true) ws ->
  (forall c, head t = Some c -> p c = false) ->
  dropwhile p (ws ++ t) = t.
Proof.
  intros Hws Ht. induction Hws as [|c ws Hc Hws IH]; simpl.
  - apply dropwhile_fixed, Ht.
  - rewrite Hc. exact IH.
Qed.

Lemma parse_line_numbered (d : list ascii) (sep : ascii)
    (ws t : list ascii) :
  d <> [] ->
  Forall (fun c => isdigit c = true) d ->
  is_marker_separator sep = true ->
  Forall (fun c => isspace c = true) ws ->
  clean_item t ->
  parse_line (str (d ++ sep :: ws ++ t)) = Some (str t).
Proof.
  intros Hne Hd Hsep Hws (Hlen & Hhead & Hlast).
  assert (Ht : exists x t', t = x :: t').
  { destruct t as [|x t']; [simpl in Hlen; lia | eauto]. }
  destruct Ht as (x & t' & Ht).
  destruct d as [|d0 d']; [contradiction|].
  assert (Hd0 : isdigit d0 = true).
  { apply Forall_cons in Hd. apply Hd. }
  set (line := ((d0 :: d') ++ sep :: ws ++ t)%list).
  assert (Hstrip : strip_chars isspace line = line).
  { apply strip_chars_fixed.
    - intros c Hc. inversion Hc; subst.
      apply isdigit_not_isspace, Hd0.
    - intros c Hc. unfold line in Hc.
      rewrite Ht in Hc.
      change ((d0 :: d') ++ sep :: ws ++ x :: t')%list
        with ((d0 :: d') ++ (sep :: ws) ++ x :: t')%list in Hc.
      rewrite !last_app in Hc.
      rewrite <- Ht in Hc.
      destruct (last t) as [y|] eqn:Hy.
      + inversion Hc; subst. apply (Hlast c eq_refl).
      + apply last_None in Hy. rewrite Hy in Ht. discriminate. }
  assert (Hmatch : match_numbered line = Some t).
  { unfold match_numbered.
    rewrite (dropwhile_fixed isspace line);
      [|intros c Hc; inversion Hc; subst; apply isdigit_not_isspace, Hd0].
    destruct (takewhile_app_stop isdigit (d0 :: d') sep (ws ++ t)%list Hd
                (separator_not_isdigit sep Hsep)) as [Htake Hdrop].
    fold line in Htake, Hdrop. rewrite Htake, Hdrop, Hsep.
    rewrite (dropwhile_app_all isspace ws t Hws
               (fun c Hc => proj1 (Hhead c Hc))).
    rewrite Ht. reflexivity. }
  assert (Hst : strip_chars isspace t = t).
  { apply strip_chars_fixed; intros c Hc;
      [apply (Hhead c Hc) | apply (Hlast c Hc)]. }
  assert (Hsq : strip_chars isquote t = t).
  { apply strip_chars_fixed; intros c Hc;
      [apply (Hhead c Hc) | apply (Hlast c Hc)]. }
  assert (Hun : unquote (str t) = str t).
  { unfold unquote, startswith, strip_quotes. rewrite chars_str.
    destruct (Hhead x) as [_ Hq]; [rewrite Ht; reflexivity|].
    unfold isquote in Hq. apply orb_false_elim in Hq.
    destruct Hq as [Hq1 Hq2].
    clear Hmatch Hstrip. subst t. cbv beta iota. rewrite Hq1, Hq2.
    cbn [andb orb]. rewrite chars_str, Hsq. reflexivity. }
  assert (Hl5 : (5 <? len (str t)) = true).
  { apply Z.ltb_lt. unfold len. rewrite length_str. lia. }
  assert (Hnz : String.eqb (str t) EmptyString = false).
  { rewrite Ht. reflexivity. }
  unfold parse_line, strip. rewrite !chars_str, Hstrip, Hmatch.
  rewrite chars_str, Hst, Hun, Hl5, Hnz. reflexivity.
Qed.

(** X9. What the pattern of [_parse_suggestions] recognises. A line made
    of digits, one of the four separators, any white space and a clean
    text (longer than 5 characters, no white space or quote at its ends)
    yields that text; a line whose first character after trimming is not
    a digit yields nothing. *)
Theorem parse_line_marker :
  (forall d sep ws t,
     d <> [] ->
     Forall (fun c => isdigit c = true) d ->
     is_marker_separator sep = true ->
     Forall (fun c => isspace c = true) ws ->
     clean_item t ->
     parse_line (str (d ++ sep :: ws ++ t)) = Some (str t))
  /\ (forall line c rest,
        chars (strip line) = c :: rest -> isdigit c = false ->
        parse_line line = None).
Proof.
  split.
  - intros d sep ws t. apply parse_line_numbered.
  - intros line c rest Hc Hd. unfold parse_line. rewrite Hc.
    unfold match_numbered.
    assert (Hsp : isspace c = false).
    { apply (strip_chars_head isspace (chars line)).
      unfold strip in Hc. rewrite chars_str in Hc. rewrite Hc. reflexivity. }
    simpl. rewrite Hsp. simpl. rewrite Hd. reflexivity.
Qed.

Lemma parse_line_marker_witness :
  parse_line "12) Offer a pilot" = Some "Offer a pilot"
  /\ parse_line "Notes: ignore this" = None.
Proof.
  destruct parse_line_marker as [Hyes Hno]. split.
  - apply (Hyes (chars "12") (ascii_of_nat 41) (chars " ")
             (chars "Offer a pilot")).
    + discriminate.
    + repeat constructor.
    + reflexivity.
    + repeat constructor.
    + split; [simpl; lia|].
      split; intros c Hc; inversion Hc; subst; split; reflexivity.
  - apply (Hno "Notes: ignore this" (ascii_of_nat 78)
             (chars "otes: ignore this")); reflexivity.
Defined.

(** * Further properties of the hub *)

(** X10. Registering a connection sends it the initial status, once, and
    sends nothing to anybody else. Afterwards the connection is live,
    unless that send found it closed: then it is unregistered again. *)
Theorem register_sends_status (json_dumps : message -> string)
    (send : connection -> string -> py_result unit)
    (websocket : connection) (srv : WebSocketServer) :
  (forall e, send websocket (json_dumps (StatusMessage false true false))
             = Raise e -> isinstance_Exception e = true) ->
  exists srv',
    _register json_dumps send websocket srv =
      Ok (srv',
          [ {| sc_client := websocket;
               sc_data := json_dumps (StatusMessage false true false);
               sc_returned :=
                 send_returns send websocket
                   (json_dumps (StatusMessage false true false)) |} ])
    /\ (forall c, c <> websocket -> (c ∈ _clients srv' <-> c ∈ _clients srv))
    /\ (websocket ∈ _clients srv' <->
        forall e, send websocket (json_dumps (StatusMessage false true false))
                  = Raise e -> isinstance_ConnectionClosed e = false).
Proof.
  intros Hexc. unfold _register, _send_to_client, initial_status, send_returns.
  destruct (send websocket (json_dumps (StatusMessage false true false)))
    as [[]|e] eqn:Hs; simpl.
  - eexists. split; [reflexivity|]. simpl. split.
    + intros c Hc. set_solver.
    + split; [intros _ e He; discriminate He | intros _; set_solver].
  - destruct (isinstance_ConnectionClosed e) eqn:Hcc; simpl.
    + eexists. split; [reflexivity|]. simpl. split.
      * intros c Hc. set_solver.
      * split; [set_solver|].
        intros H. specialize (H e eq_refl). congruence.
    + rewrite (Hexc e eq_refl). simpl.
      eexists. split; [reflexivity|]. simpl. split.
      * intros c Hc. set_solver.
      * split; [|intros _; set_solver].
        intros _ e' He'. inversion He'; subst. exact Hcc.
Qed.

Lemma register_sends_status_witness :
  exists srv',
    _register kind_of flaky_send 2%nat three_clients =
      Ok (srv',
          [ {| sc_client := 2%nat; sc_data := "status";
               sc_returned := false |} ])
    /\ ~ 2%nat ∈ _clients srv'.
Proof.
  destruct (register_sends_status kind_of flaky_send 2%nat three_clients)
    as (srv' & Hr & _ & Hin).
  - intros e He. inversion He. reflexivity.
  - exists srv'. split; [exact Hr|].
    intros H. destruct Hin as [Hin _].
    discriminate (Hin H ConnectionClosed eq_refl).
Defined.

(** X11. [_unregister] is idempotent and leaves a server without the
    connection as it is; registering a new connection whose send returns
    and unregistering it gives the live set back. *)
Theorem unregister_idempotent (json_dumps : message -> string)
    (send : connection -> string -> py_result unit)
    (websocket : connection) (srv : WebSocketServer) :
  _unregister websocket (_unregister websocket srv) = _unregister websocket srv
  /\ (websocket ∉ _clients srv -> _unregister websocket srv = srv)
  /\ (websocket ∉ _clients srv ->
      send websocket (json_dumps (StatusMessage false true false)) = Ok tt ->
      exists srv' sent,
        _register json_dumps send websocket srv = Ok (srv', sent)
        /\ websocket ∈ _clients srv'
        /\ _unregister websocket srv' = srv).
Proof.
  destruct srv as [clients]. unfold _unregister. simpl.
  split; [|split].
  - f_equal. set_solver.
  - intros H. f_equal. set_solver.
  - intros H Hs. unfold _register, _send_to_client, initial_status.
    rewrite Hs. simpl. eexists _, _. split; [reflexivity|]. simpl.
    split; [set_solver|]. f_equal. set_solver.
Qed.

Lemma unregister_idempotent_witness :
  exists srv' sent,
    _register kind_of flaky_send 4%nat three_clients = Ok (srv', sent)
    /\ 4%nat ∈ _clients srv'
    /\ _unregister 4%nat srv' = three_clients.
Proof.
  apply (unregister_idempotent kind_of flaky_send 4%nat three_clients).
  - unfold three_clients. simpl.
    rewrite !not_elem_of_union, !not_elem_of_singleton. lia.
  - reflexivity.
Defined.

(** X12. A send that fails with an [Exception] other than a closed
    connection is handled in two ways: [_send_to_client] keeps the
    connection registered; a [broadcast] during which no other task
    changes the live set removes it. *)
Theorem failed_send_kept_or_removed (json_dumps : message -> string)
    (send : connection -> string -> py_result unit)
    (schedule : list meanwhile)
    (websocket : connection) (msg : message) (srv : WebSocketServer)
    (e : py_exception) :
  websocket ∈ _clients srv ->
  send websocket (json_dumps msg) = Raise e ->
  isinstance_ConnectionClosed e = false ->
  (forall c e', send c (json_dumps msg) = Raise e' ->
     isinstance_Exception e' = true) ->
  undisturbed (_clients srv) schedule ->
  (exists sent,
     _send_to_client json_dumps send websocket msg srv = Ok (srv, sent))
  /\ (exists srv' sent,
        broadcast json_dumps send schedule msg srv = (srv', sent, Ok tt)
        /\ websocket ∉ _clients srv').
Proof.
  intros Hin Hs Hcc Hexc Hquiet. split.
  - unfold _send_to_client. rewrite Hs. simpl.
    rewrite Hcc, (Hexc _ _ Hs). eauto.
  - destruct (broadcast_result json_dumps send schedule msg srv Hquiet Hexc)
      as (srv' & sent & Hb & _ & Hmem).
    exists srv', sent. split; [exact Hb|].
    intros H. apply Hmem in H. destruct H as [_ H].
    unfold send_returns in H. rewrite Hs in H. discriminate H.
Qed.

Lemma failed_send_kept_or_removed_witness :
  (exists sent,
     _send_to_client kind_of broken_send 2%nat (StatusMessage true true true)
       three_clients = Ok (three_clients, sent))
  /\ (exists srv' sent,
        broadcast kind_of broken_send [] (StatusMessage true true true)
          three_clients = (srv', sent, Ok tt)
        /\ 2%nat ∉ _clients srv').
Proof.
  apply (failed_send_kept_or_removed kind_of broken_send [] 2%nat
           (StatusMessage true true true) three_clients OSError).
  - unfold three_clients. simpl.
    rewrite !elem_of_union, !elem_of_singleton. lia.
  - reflexivity.
  - reflexivity.
  - intros c e' H. unfold broken_send in H.
    destruct (c =? 2)%nat; inversion H; reflexivity.
  - constructor.
Defined.

(** * Further properties of the transcript adapter *)

Lemma falsy_false_not_empty (s : string) :
  falsy s = false -> s <> EmptyString.
Proof. unfold falsy. intros H. apply String.eqb_neq, H. Qed.

(** X13. Only a message of type Results with a first alternative whose
    transcript is not blank reaches the callback, and the text it carries
    is that transcript trimmed, never empty. Without diarization words,
    or when the first word names no speaker, the speaker is 0, which the
    pipeline labels as the prospect; without an [is_final] key the result
    is interim. *)
Theorem process_message_result (data : service_message)
    (r : Transcription.TranscriptResult) :
  _process_message data = Some r ->
  m_type data = Some "Results"
  /\ (exists alt rest ch,
        m_channel data = Some ch
        /\ c_alternatives ch = Some (alt :: rest)
        /\ Transcription.text r = strip (get (a_transcript alt) EmptyString)
        /\ ((a_words alt = None \/ a_words alt = Some []
             \/ exists ws, a_words alt = Some ({| w_speaker := None |} :: ws)) ->
            Transcription.speaker r = 0
            /\ speaker_label (Transcription.speaker r) = "prospect"))
  /\ Transcription.text r <> EmptyString
  /\ strip (Transcription.text r) = Transcription.text r
  /\ (m_is_final data = None -> Transcription.is_final r = false).
Proof.
  unfold _process_message. intros H.
  destruct (m_type data) as [t|] eqn:Ht; [|discriminate].
  destruct (String.eqb_spec t "Results") as [->|]; [|discriminate].
  split; [reflexivity|].
  unfold _handle_results in H.
  destruct (m_channel data) as [ch|] eqn:Hch; simpl in H; [|discriminate].
  destruct (c_alternatives ch) as [alts|] eqn:Halts; simpl in H;
    [|discriminate].
  destruct alts as [|alt rest]; [discriminate|].
  destruct (falsy (strip (get (a_transcript alt) EmptyString))) eqn:Hf;
    [discriminate|].
  inversion H; subst r; clear H. simpl.
  split; [|split; [|split]].
  - exists alt, rest, ch.
    split; [reflexivity|]. split; [exact Halts|]. split; [reflexivity|].
    intros Hw. destruct Hw as [-> | [-> | [ws ->]]]; split; reflexivity.
  - apply falsy_false_not_empty, Hf.
  - apply strip_stable.
  - intros ->. reflexivity.
Qed.

Lemma process_message_result_witness :
  _process_message plain_message
  = Some {| Transcription.text := "not sure about that";
            Transcription.speaker := 0;
            Transcription.is_final := false |}
  /\ strip "not sure about that" = "not sure about that".
Proof.
  split; [reflexivity|].
  apply (process_message_result plain_message
           {| Transcription.text := "not sure about that";
              Transcription.speaker := 0;
              Transcription.is_final := false |} eq_refl).
Defined.

(** * Further properties of the orchestrator *)

(** X14. The generation lock never leaks: in every state the event loop
    can reach, the lock is held exactly when one task is inside
    [async with], waiting for the executor or for the broadcast of its
    batch, and free exactly when no task is. *)
Theorem lock_held_by_one_task (w : event_loop) :
  reachable w ->
  (locked (_generation_lock (app w)) = true <-> holders (tasks w) = 1%nat)
  /\ (locked (_generation_lock (app w)) = false <-> holders (tasks w) = 0%nat).
Proof.
  intros Hr. destruct (reachable_inv w Hr) as (_ & _ & Hcount).
  destruct (locked (_generation_lock (app w))); rewrite Hcount;
    split; split; intros H; try reflexivity; discriminate H.
Qed.

Lemma lock_held_by_one_task_witness :
  locked (_generation_lock (app loop_generating)) = true
  /\ holders (tasks loop_generating) = 1%nat.
Proof.
  split; [reflexivity|].
  apply (lock_held_by_one_task loop_generating reachable_loop_generating).
  reflexivity.
Defined.

Lemma last_prospect_statement_in_history (b : ConversationBuffer)
    (s : string) :
  get_last_prospect_statement b = Some s ->
  exists u, In u (utterances b) /\ text u = s.
Proof.
  unfold get_last_prospect_statement.
  destruct (List.find _ (rev (utterances b))) as [u|] eqn:Hu; [|discriminate].
  intros H. inversion H; subst. apply find_some in Hu.
  destruct Hu as [Hin _]. apply in_rev in Hin. eauto.
Qed.

(** What the orchestrator keeps: trimmed texts in its buffer and sound
    calls in its log. *)
Lemma locked_body_sound (a : SalesAssistant) :
  texts_trimmed (context_buffer a) -> Forall sound_call (calls a) ->
  texts_trimmed (context_buffer (fst (_generate_suggestions_locked a)))
  /\ Forall sound_call (calls (fst (_generate_suggestions_locked a))).
Proof.
  intros Ht Hc. unfold _generate_suggestions_locked.
  destruct (get_last_prospect_statement (context_buffer a)) as [s|] eqn:Hs;
    [|simpl; auto].
  destruct (falsy s) eqn:Hf; simpl; [auto|].
  split; [exact Ht|].
  apply Forall_app. split; [exact Hc|].
  constructor; [|constructor]. simpl. split; [exact Hf|].
  destruct (last_prospect_statement_in_history _ s Hs) as (u & Hin & <-).
  unfold texts_trimmed in Ht. rewrite Forall_forall in Ht.
  apply Ht, list_elem_of_In, Hin.
Qed.

Lemma generate_suggestions_sound (a : SalesAssistant) :
  texts_trimmed (context_buffer a) -> Forall sound_call (calls a) ->
  texts_trimmed (context_buffer (fst (_generate_suggestions a)))
  /\ Forall sound_call (calls (fst (_generate_suggestions a))).
Proof.
  intros Ht Hc. unfold _generate_suggestions.
  destruct (locked (_generation_lock a)); [auto|].
  destruct (acquire (_generation_lock a)) as [l [|]]; simpl; [|auto].
  apply (locked_body_sound (set_lock l a)); assumption.
Qed.

Lemma run_task_sound (now : Z) (c : client) (t : task) (a : SalesAssistant) :
  texts_trimmed (context_buffer a) -> Forall sound_call (calls a) ->
  texts_trimmed (context_buffer (fst (run_task now c t a)))
  /\ Forall sound_call (calls (fst (run_task now c t a))).
Proof.
  intros Ht Hc. destruct t as [r|r| |ctx stmt|items]; simpl.
  - split; [exact Ht|]. apply Forall_app. split; [exact Hc|].
    constructor; [exact I | constructor].
  - unfold _process_transcript_resume.
    destruct (Transcription.is_final r); [|auto].
    destruct (should_trigger_ai now (context_buffer a)) as [[|]|e]; auto.
    apply generate_suggestions_sound; assumption.
  - apply (locked_body_sound
             (set_lock (acquire_resume (_generation_lock a)) a));
      assumption.
  - unfold _generate_suggestions_resume.
    destruct (generate_sync c ctx stmt) as [[|s items]|e]; simpl; auto.
    split; [exact Ht|]. apply Forall_app. split; [exact Hc|].
    constructor; [exact I | constructor].
  - auto.
Qed.

Lemma reachable_sound (w : event_loop) :
  reachable w ->
  texts_trimmed (context_buffer (app w)) /\ Forall sound_call (calls (app w)).
Proof.
  induction 1 as [|w w' Hw [Ht Hc] Hstep].
  - split; constructor.
  - destruct Hstep as [t1 t2 r w | w | now c t pre post w Hts Hr]; simpl.
    + split; [|exact Hc].
      apply (apply_op_texts_trimmed (OpIngest (fragment_of t1 t2 r))), Ht.
    + split; [constructor | exact Hc].
    + apply run_task_sound; assumption.
Qed.

(** X15. Every generation request the pipeline issues carries a statement
    that is neither empty nor blank, and trimmed: the guard at the head of
    [generate_sync] never turns a request of the pipeline away. *)
Theorem generation_requests_sound (w : event_loop) :
  reachable w ->
  forall context last_statement,
    In (Generate context last_statement) (calls (app w)) ->
    last_statement <> EmptyString
    /\ strip last_statement = last_statement
    /\ falsy last_statement || falsy (strip last_statement) = false.
Proof.
  intros Hr context last_statement Hin.
  destruct (reachable_sound w Hr) as [_ Hc].
  rewrite Forall_forall in Hc.
  specialize (Hc _ (proj2 (list_elem_of_In _ _) Hin)). simpl in Hc.
  destruct Hc as [Hf Hs].
  split; [apply falsy_false_not_empty, Hf|]. split; [exact Hs|].
  rewrite Hs, Hf. reflexivity.
Qed.

Lemma generation_requests_sound_witness :
  In (Generate "Prospect: That's too expensive for our budget right now"
        "That's too expensive for our budget right now")
     (calls (app loop_generating))
  /\ strip "That's too expensive for our budget right now"
     = "That's too expensive for our budget right now".
Proof.
  assert (H : In (Generate
                    "Prospect: That's too expensive for our budget right now"
                    "That's too expensive for our budget right now")
                 (calls (app loop_generating))).
  { vm_compute. right. left. reflexivity. }
  split; [exact H|].
  apply (generation_requests_sound loop_generating reachable_loop_generating
           _ _ H).
Defined.

(** * Properties of the listening session *)

Ltac session_unfold :=
  unfold _handle_client_message, _start_listening, _stop_listening,
    try_except_Exception, and_then, ret, raise, audio_capture_start,
    audio_capture_stop, transcriber_connect, transcriber_disconnect,
    broadcast_status, clear_buffer, set_listening, set_running,
    set_connected, set_audio_task in *.

Lemma handle_preserves_flags (env : environment) (msg_type : option string)
    (p : pipeline) :
  raises_exceptions_only env ->
  flags_agree p ->
  flags_agree (fst (_handle_client_message env msg_type p)).
Proof.
  intros (Ho & Hc & Hb) [Hr Ht].
  destruct p as [l r c t b st]. simpl in Hr, Ht. subst r c.
  destruct env as [o cn bo]. simpl in Ho, Hc, Hb.
  unfold flags_agree. session_unfold.
  destruct msg_type as [m|]; [|simpl; auto].
  destruct (String.eqb m "start_listening").
  { destruct l; simpl; [auto|].
    destruct o as [[]|eo]; simpl.
    - destruct cn as [[]|ec]; simpl.
      + destruct bo as [[]|eb]; simpl; [auto|].
        assert (He := Hb eb eq_refl).
        repeat (rewrite He; simpl). auto.
      + assert (He := Hc ec eq_refl).
        repeat (rewrite He; simpl). auto.
    - assert (He := Ho eo eq_refl).
      repeat (rewrite He; simpl). auto. }
  destruct (String.eqb m "stop_listening").
  { destruct l; simpl; [|auto]. destruct bo as [[]|eb]; simpl; auto. }
  destruct (String.eqb m "get_status"); [simpl; auto|].
  destruct (String.eqb m "clear_buffer"); simpl; auto.
Qed.

(** X16. Starting from a new assistant, whatever commands the clients
    send and whatever fails while they are handled (short of raising
    something that is not an [Exception]), the three flags agree after
    every command: audio runs and the transcriber is connected exactly
    when the assistant is listening. So [get_status] reports
    [transcribing] equal to [listening]. *)
Theorem flags_always_agree (commands : list (environment * option string)) :
  Forall (fun c => raises_exceptions_only (fst c)) commands ->
  flags_agree (handle_all commands idle)
  /\ forall env,
       snd (_handle_client_message env (Some "get_status")
              (handle_all commands idle))
       = Ok (Some (StatusReply (_is_listening (handle_all commands idle)) true
                     (_is_listening (handle_all commands idle)))).
Proof.
  intros Hall.
  assert (H : flags_agree (handle_all commands idle)).
  { unfold handle_all.
    assert (H0 : flags_agree idle) by (split; reflexivity).
    revert H0. generalize idle.
    induction Hall as [|c cs Hc Hcs IH]; intros p Hp; simpl; [exact Hp|].
    apply IH, handle_preserves_flags; assumption. }
  split; [exact H|].
  intros env. simpl. destruct H as [_ ->].
  destruct (_is_listening (handle_all commands idle)); reflexivity.
Qed.

Lemma flags_always_agree_witness :
  flags_agree
    (handle_all
       [ (service_down, Some "start_listening");
         (all_fine, Some "start_listening");
         (all_fine, Some "clear_buffer") ] idle)
  /\ _is_listening
       (handle_all
          [ (service_down, Some "start_listening");
            (all_fine, Some "start_listening");
            (all_fine, Some "clear_buffer") ] idle) = true.
Proof.
  split; [|reflexivity].
  apply flags_always_agree.
  repeat constructor; simpl; intros e H; inversion H; reflexivity.
Defined.

(** X17. A start command on an idle pipeline either succeeds at every
    step, and then the reply is an acknowledgement, the pipeline listens
    with audio running and the transcriber connected and one status with
    all flags set was broadcast; or its first failure is reported in an
    error reply and everything is rolled back: not listening, audio
    stopped, transcriber disconnected. The buffer is not touched. *)
Theorem start_listening_outcome (env : environment) (p : pipeline) :
  raises_exceptions_only env ->
  _is_listening p = false ->
  audio_is_running p = false ->
  transcriber_is_connected p = false ->
  buffer (fst (_handle_client_message env (Some "start_listening") p))
  = buffer p
  /\ match open_stream env, connect_service env, broadcast_outcome env with
     | Ok _, Ok _, Ok _ =>
         snd (_handle_client_message env (Some "start_listening") p)
         = Ok (Some (Ack true))
         /\ _is_listening
              (fst (_handle_client_message env (Some "start_listening") p))
            = true
         /\ audio_is_running
              (fst (_handle_client_message env (Some "start_listening") p))
            = true
         /\ transcriber_is_connected
              (fst (_handle_client_message env (Some "start_listening") p))
            = true
         /\ statuses
              (fst (_handle_client_message env (Some "start_listening") p))
            = (statuses p ++ [StatusMessage true true true])%list
     | Raise e, _, _ | Ok _, Raise e, _ | Ok _, Ok _, Raise e =>
         snd (_handle_client_message env (Some "start_listening") p)
         = Ok (Some (ErrorReply e))
         /\ _is_listening
              (fst (_handle_client_message env (Some "start_listening") p))
            = false
         /\ audio_is_running
              (fst (_handle_client_message env (Some "start_listening") p))
            = false
         /\ transcriber_is_connected
              (fst (_handle_client_message env (Some "start_listening") p))
            = false
     end.
Proof.
  intros (Ho & Hc & Hb) Hl Hr Ht.
  destruct p as [l r c t b st]. simpl in Hl, Hr, Ht. subst l r c.
  destruct env as [o cn bo]. simpl in Ho, Hc, Hb.
  session_unfold. simpl.
  destruct o as [[]|eo]; simpl.
  - destruct cn as [[]|ec]; simpl.
    + destruct bo as [[]|eb]; simpl; [auto 6|].
      assert (He := Hb eb eq_refl).
      repeat (rewrite He; simpl). auto.
    + assert (He := Hc ec eq_refl).
      repeat (rewrite He; simpl). auto.
  - assert (He := Ho eo eq_refl).
    repeat (rewrite He; simpl). auto.
Qed.

Lemma start_listening_outcome_witness :
  snd (_handle_client_message service_down (Some "start_listening") idle)
  = Ok (Some (ErrorReply OSError))
  /\ audio_is_running
       (fst (_handle_client_message service_down (Some "start_listening") idle))
     = false.
Proof.
  assert (H : raises_exceptions_only service_down).
  { repeat split; simpl; intros e He; inversion He; reflexivity. }
  destruct (start_listening_outcome service_down idle H eq_refl eq_refl
              eq_refl) as [_ Hm].
  simpl in Hm. destruct Hm as (Hr & _ & Ha & _). split; assumption.
Defined.

(** X18. A stop command on a listening pipeline stops audio, disconnects
    the transcriber, clears the conversation buffer and broadcasts one
    status with listening and transcribing cleared; it is acknowledged
    when that broadcast returns, and when the broadcast raises the
    command raises although the session is already stopped. On a pipeline
    that is not listening the command changes nothing and is
    acknowledged. A command of an unknown type changes nothing and gets
    no reply. *)
Theorem stop_listening_outcome (env : environment) (p : pipeline) :
  (_is_listening p = true ->
   let p' := fst (_handle_client_message env (Some "stop_listening") p) in
   _is_listening p' = false
   /\ audio_is_running p' = false
   /\ transcriber_is_connected p' = false
   /\ buffer p' = clear (buffer p)
   /\ statuses p' = (statuses p ++ [StatusMessage false true false])%list
   /\ snd (_handle_client_message env (Some "stop_listening") p)
      = match broadcast_outcome env with
        | Ok _ => Ok (Some (Ack true))
        | Raise e => Raise e
        end)
  /\ (_is_listening p = false ->
      _handle_client_message env (Some "stop_listening") p
      = (p, Ok (Some (Ack true))))
  /\ (forall t,
        t <> "start_listening" -> t <> "stop_listening" ->
        t <> "get_status" -> t <> "clear_buffer" ->
        _handle_client_message env (Some t) p = (p, Ok None))
  /\ _handle_client_message env None p = (p, Ok None).
Proof.
  destruct p as [l r c t b st]. destruct env as [o cn bo].
  split; [|split; [|split]].
  - simpl. intros ->. session_unfold. simpl.
    destruct r, c, bo as [[]|eb]; simpl; auto 7.
  - simpl. intros ->. reflexivity.
  - intros m H1 H2 H3 H4. unfold _handle_client_message.
    apply String.eqb_neq in H1, H2, H3, H4.
    rewrite H1, H2, H3, H4. reflexivity.
  - reflexivity.
Qed.

Lemma stop_listening_outcome_witness :
  buffer
    (fst (_handle_client_message all_fine (Some "stop_listening")
            (handle_all [(all_fine, Some "start_listening")] idle)))
  = clear default_buffer
  /\ _handle_client_message all_fine (Some "pause") idle = (idle, Ok None).
Proof.
  destruct (stop_listening_outcome all_fine
              (handle_all [(all_fine, Some "start_listening")] idle))
    as (Hstop & _ & _ & _).
  destruct (stop_listening_outcome all_fine idle) as (_ & _ & Hunk & _).
  split.
  - destruct (Hstop eq_refl) as (_ & _ & _ & Hb & _). exact Hb.
  - apply Hunk; discriminate.
Defined.

(** * Interim fragments and the context window *)

Lemma ingest_history_congruence (f : fragment) (b1 b2 : ConversationBuffer) :
  utterances b1 = utterances b2 -> max_duration b1 = max_duration b2 ->
  last_suggestion_time b1 = last_suggestion_time b2 ->
  suggestion_cooldown b1 = suggestion_cooldown b2 ->
  utterances (ingest f b1) = utterances (ingest f b2)
  /\ max_duration (ingest f b1) = max_duration (ingest f b2)
  /\ last_suggestion_time (ingest f b1) = last_suggestion_time (ingest f b2)
  /\ suggestion_cooldown (ingest f b1) = suggestion_cooldown (ingest f b2).
Proof.
  intros Hu Hm Hl Hc. unfold ingest, add_transcript, add. simpl.
  destruct (f_final f); simpl; rewrite ?Hu, ?Hm; auto.
Qed.

(** X19. Interim fragments never reach the history: the history, and with
    it the context string, the last prospect statement and the answer of
    [should_trigger_ai], are those of the run with the interim fragments
    left out. *)
Theorem history_ignores_interims (fs : list fragment)
    (b : ConversationBuffer) :
  utterances (ingest_all fs b)
  = utterances (ingest_all (List.filter f_final fs) b)
  /\ (forall n,
        get_context_string n (ingest_all fs b)
        = get_context_string n (ingest_all (List.filter f_final fs) b))
  /\ get_last_prospect_statement (ingest_all fs b)
     = get_last_prospect_statement (ingest_all (List.filter f_final fs) b)
  /\ (forall now,
        should_trigger_ai now (ingest_all fs b)
        = should_trigger_ai now (ingest_all (List.filter f_final fs) b)).
Proof.
  assert (H : forall b1 b2,
            utterances b1 = utterances b2 ->
            max_duration b1 = max_duration b2 ->
            last_suggestion_time b1 = last_suggestion_time b2 ->
            suggestion_cooldown b1 = suggestion_cooldown b2 ->
            utterances (ingest_all fs b1)
            = utterances (ingest_all (List.filter f_final fs) b2)
            /\ last_suggestion_time (ingest_all fs b1)
               = last_suggestion_time (ingest_all (List.filter f_final fs) b2)
            /\ suggestion_cooldown (ingest_all fs b1)
               = suggestion_cooldown (ingest_all (List.filter f_final fs) b2)).
  { induction fs as [|f fs IH]; intros b1 b2 Hu Hm Hl Hc; simpl; [auto|].
    destruct (f_final f) eqn:Hf; simpl.
    - destruct (ingest_history_congruence f b1 b2 Hu Hm Hl Hc)
        as (Hu' & Hm' & Hl' & Hc').
      apply IH; assumption.
    - destruct (ingest_keeps_cooldown f b1) as (Hl1 & Hc1 & Hm1).
      apply IH; rewrite ?(utterances_ingest_interim f b1 Hf); congruence. }
  destruct (H b b eq_refl eq_refl eq_refl eq_refl) as (Hu & Hl & Hc).
  split; [exact Hu|]. split; [|split].
  - intros n. unfold get_context_string. rewrite Hu. reflexivity.
  - unfold get_last_prospect_statement. rewrite Hu. reflexivity.
  - intros now. unfold should_trigger_ai, in_cooldown.
    rewrite Hu, Hl, Hc. reflexivity.
Qed.

(** X20. [get_context_string(last_n)] renders a suffix of the final
    utterances: the [last_n] newest for a positive [last_n] smaller than
    their number, all of them for a larger one; a negative [last_n] drops
    the oldest utterances, as many as its absolute value, so that it
    renders nothing when that is at least their number. *)
Theorem get_context_string_last_n (b : ConversationBuffer) (n : Z) :
  n <> 0 ->
  exists older selected,
    List.filter (fun u => is_final u) (utterances b)
    = (older ++ selected)%list
    /\ get_context_string (Some n) b = join_lines (map render selected)
    /\ (0 < n ->
        Z.of_nat (length selected)
        = Z.min n
            (Z.of_nat
               (length (List.filter (fun u => is_final u) (utterances b)))))
    /\ (n < 0 ->
        Z.of_nat (length older)
        = Z.min (- n)
            (Z.of_nat
               (length (List.filter (fun u => is_final u) (utterances b)))))
    /\ (Z.of_nat
          (length (List.filter (fun u => is_final u) (utterances b))) <= n ->
        get_context_string (Some n) b = get_context_string None b)
    /\ (n < 0 ->
        Z.of_nat
          (length (List.filter (fun u => is_final u) (utterances b))) <= - n ->
        selected = [] /\ get_context_string (Some n) b = EmptyString).
Proof.
  intros Hn. unfold get_context_string.
  destruct (Z.eqb_spec n 0) as [|_]; [contradiction|].
  set (finals := List.filter (fun u => is_final u) (utterances b)).
  unfold slice_from_minus.
  destruct (Z.ltb_spec 0 n) as [Hpos|Hneg].
  - exists (firstn (length finals - Z.to_nat n) finals),
           (skipn (length finals - Z.to_nat n) finals).
    split; [symmetry; apply firstn_skipn|]. split; [reflexivity|].
    split; [|split; [|split]].
    + intros _. rewrite length_skipn. lia.
    + intros H. lia.
    + intros H.
      replace (length finals - Z.to_nat n)%nat with 0%nat by lia.
      reflexivity.
    + intros H. lia.
  - exists (firstn (Z.to_nat (- n)) finals), (skipn (Z.to_nat (- n)) finals).
    split; [symmetry; apply firstn_skipn|]. split; [reflexivity|].
    split; [|split; [|split]].
    + intros H. lia.
    + intros _. rewrite length_firstn. lia.
    + intros H. lia.
    + intros _ Hcount. rewrite skipn_all2; [split; reflexivity | lia].
Qed.

Lemma get_context_string_last_n_witness :
  get_context_string (Some 1)
    (ingest operator_reply (ingest objection default_buffer))
  = "Salesperson: Let me walk you through the numbers"
  /\ get_context_string (Some 5)
       (ingest operator_reply (ingest objection default_buffer))
     = get_context_string None
         (ingest operator_reply (ingest objection default_buffer))
  /\ get_context_string (Some (-2))
       (ingest operator_reply (ingest objection default_buffer))
     = EmptyString.
Proof.
  split; [reflexivity|].
  destruct (get_context_string_last_n
              (ingest operator_reply (ingest objection default_buffer)) 5)
    as (older & selected & _ & _ & _ & _ & Hall & _); [lia|].
  destruct (get_context_string_last_n
              (ingest operator_reply (ingest objection default_buffer)) (-2))
    as (older' & selected' & _ & _ & _ & _ & _ & Hnone); [lia|].
  split; [apply Hall; vm_compute; discriminate|].
  apply Hnone; [lia | vm_compute; discriminate].
Defined.

(** * Round trip of a numbered reply *)

Lemma chars_append (s1 s2 : string) :
  chars (s1 ++ s2) = (chars s1 ++ chars s2)%list.
Proof.
  induction s1 as [|c s1 IH]; simpl; [reflexivity|].
  unfold chars in *. simpl. rewrite IH. reflexivity.
Qed.

Lemma chars_join_lines (ls : list (list ascii)) :
  chars (join_lines (map str ls)) = interleave ls.
Proof.
  induction ls as [|l ls IH]; [reflexivity|].
  destruct ls as [|l' ls]; [apply chars_str|].
  change (join_lines (map str (l :: l' :: ls)))
    with (str l ++ String newline (join_lines (map str (l' :: ls)))).
  rewrite chars_append, chars_str.
  change (chars (String newline (join_lines (map str (l' :: ls)))))
    with (newline :: chars (join_lines (map str (l' :: ls)))).
  rewrite IH. reflexivity.
Qed.

Lemma split_lines_aux_line (l rest cur : list ascii) :
  Forall (fun c => c <> newline) l ->
  split_lines_aux cur (l ++ rest) = split_lines_aux (rev l ++ cur) rest.
Proof.
  intros Hl. revert cur.
  induction Hl as [|c l Hc Hl IH]; intros cur; simpl; [reflexivity|].
  destruct (Ascii.eqb_spec c newline) as [E|_]; [contradiction|].
  rewrite IH, <- app_assoc. reflexivity.
Qed.

Lemma split_lines_aux_newline (cur rest : list ascii) :
  split_lines_aux cur (newline :: rest) = rev cur :: split_lines_aux [] rest.
Proof. reflexivity. Qed.

Lemma split_lines_aux_interleave (l : list ascii) (ls : list (list ascii))
    (cur : list ascii) :
  Forall (Forall (fun c => c <> newline)) (l :: ls) ->
  split_lines_aux cur (interleave (l :: ls)) = (rev cur ++ l)%list :: ls.
Proof.
  revert l cur. induction ls as [|l' ls IH]; intros l cur Hall.
  - apply Forall_cons in Hall. destruct Hall as [Hl _]. simpl.
    rewrite <- (app_nil_r l) at 1.
    rewrite (split_lines_aux_line l [] cur Hl). simpl.
    rewrite rev_app_distr, rev_involutive. reflexivity.
  - apply Forall_cons in Hall. destruct Hall as [Hl Hall].
    change (interleave (l :: l' :: ls))
      with (l ++ newline :: interleave (l' :: ls))%list.
    rewrite (split_lines_aux_line l _ cur Hl), split_lines_aux_newline.
    rewrite (IH l' [] Hall), rev_app_distr, rev_involutive. reflexivity.
Qed.

Lemma head_interleave (l : list ascii) (ls : list (list ascii)) :
  l <> [] -> head (interleave (l :: ls)) = head l.
Proof.
  intros Hl. destruct l as [|c l]; [contradiction|].
  destruct ls; reflexivity.
Qed.

Lemma last_interleave (ls : list (list ascii)) :
  Forall (fun k => k <> []) ls ->
  last (interleave ls)
  = match last ls with
    | Some k => last k
    | None => None
    end.
Proof.
  induction ls as [|l ls IH]; intros Hall; [reflexivity|].
  destruct ls as [|l' ls]; [reflexivity|].
  apply Forall_cons in Hall. destruct Hall as [_ Hall].
  change (interleave (l :: l' :: ls))
    with (l ++ [newline] ++ interleave (l' :: ls))%list.
  rewrite !last_app, (IH Hall), last_cons_cons.
  destruct (last (l' :: ls)) as [k|] eqn:Hk;
    [|apply last_None in Hk; discriminate Hk].
  assert (Hne : k <> []).
  { rewrite Forall_forall in Hall. apply Hall, last_Some_elem_of, Hk. }
  destruct (last k) as [c|] eqn:Hc; [reflexivity|].
  apply last_None in Hc. contradiction.
Qed.

Lemma isdigit_not_newline (c : ascii) : isdigit c = true -> c <> newline.
Proof.
  destruct c as [[] [] [] [] [] [] [] []]; vm_compute; intros H E;
    congruence.
Qed.

Lemma separator_not_newline (c : ascii) :
  is_marker_separator c = true -> c <> newline.
Proof.
  destruct c as [[] [] [] [] [] [] [] []]; vm_compute; intros H E;
    congruence.
Qed.

(** The characters of a numbered line. *)
Lemma well_formed_line (x : numbered) :
  well_formed x ->
  Forall (fun c => c <> newline)
    (n_digits x ++ n_separator x :: n_space x ++ n_text x)
  /\ (exists c, head (n_digits x ++ n_separator x :: n_space x ++ n_text x)
                = Some c /\ isspace c = false)
  /\ (exists c, last (n_digits x ++ n_separator x :: n_space x ++ n_text x)
                = Some c /\ isspace c = false)
  /\ parse_line (line_of x) = Some (str (n_text x)).
Proof.
  intros (Hne & Hd & Hsep & Hws & Hclean & Hnl).
  split; [|split; [|split]].
  - apply Forall_app. split.
    + eapply Forall_impl; [exact Hd|]. simpl. apply isdigit_not_newline.
    + constructor; [apply separator_not_newline, Hsep|].
      apply Forall_app. split; [|exact Hnl].
      eapply Forall_impl; [exact Hws|]. simpl. tauto.
  - destruct (n_digits x) as [|d ds]; [contradiction|].
    exists d. split; [reflexivity|].
    apply isdigit_not_isspace. apply Forall_cons in Hd. apply Hd.
  - destruct Hclean as (Hlen & _ & Hlast).
    destruct (last (n_text x)) as [c|] eqn:Hc.
    + exists c. split; [|apply (Hlast c eq_refl)].
      change (n_digits x ++ n_separator x :: n_space x ++ n_text x)%list
        with (n_digits x ++ (n_separator x :: n_space x) ++ n_text x)%list.
      rewrite !last_app, Hc. reflexivity.
    + apply last_None in Hc. rewrite Hc in Hlen. simpl in Hlen. lia.
  - unfold line_of. apply parse_line_numbered; try assumption.
    eapply Forall_impl; [exact Hws|]. simpl. tauto.
Qed.

Lemma collect_numbered (xs : list numbered) :
  Forall well_formed xs ->
  collect (map line_of xs) = map (fun x => str (n_text x)) xs.
Proof.
  induction 1 as [|x xs Hx Hxs IH]; simpl; [reflexivity|].
  destruct (well_formed_line x Hx) as (_ & _ & _ & ->).
  rewrite IH. reflexivity.
Qed.

(** X21. A reply in the format the system prompt asks for parses back:
    for numbered lines with an ordinal of digits, one of the separators
    . ) : - , white space and a clean text, [_parse_suggestions] returns
    the texts of the first three lines, in order. *)
Theorem parse_numbered_reply (xs : list numbered) :
  Forall well_formed xs ->
  _parse_suggestions (reply_of xs)
  = map (fun x => str (n_text x)) (firstn 3 xs).
Proof.
  intros Hall. destruct xs as [|x xs]; [reflexivity|].
  set (raw := fun x : numbered =>
                (n_digits x ++ n_separator x :: n_space x ++ n_text x)%list).
  assert (Hreply : reply_of (x :: xs) = join_lines (map str (map raw (x :: xs)))).
  { unfold reply_of. rewrite map_map. reflexivity. }
  assert (Hlines : Forall (Forall (fun c => c <> newline)) (map raw (x :: xs))).
  { apply Forall_map. eapply Forall_impl; [exact Hall|]. simpl.
    intros y Hy. apply (well_formed_line y Hy). }
  assert (Hnonempty : Forall (fun k => k <> []) (map raw (x :: xs))).
  { apply Forall_map. eapply Forall_impl; [exact Hall|]. simpl.
    intros y Hy. destruct (well_formed_line y Hy) as (_ & (c & Hc & _) & _).
    intros E. unfold raw in E. rewrite E in Hc. discriminate Hc. }
  assert (Hstrip : strip (reply_of (x :: xs))
                   = str (interleave (map raw (x :: xs)))).
  { unfold strip. rewrite Hreply, chars_join_lines. f_equal.
    apply strip_chars_fixed.
    - intros c Hc. simpl map in Hc. rewrite head_interleave in Hc.
      + apply Forall_cons in Hall. destruct Hall as [Hx _].
        destruct (well_formed_line x Hx) as (_ & (c' & Hc' & Hsp) & _).
        unfold raw in Hc. rewrite Hc' in Hc. inversion Hc; subst. exact Hsp.
      + apply Forall_cons in Hnonempty. apply Hnonempty.
    - intros c Hc. rewrite (last_interleave _ Hnonempty) in Hc.
      destruct (last (map raw (x :: xs))) as [k|] eqn:Hk; [|discriminate Hc].
      apply last_Some_elem_of, list_elem_of_In, in_map_iff in Hk.
      destruct Hk as (y & <- & Hy).
      rewrite Forall_forall in Hall.
      specialize (Hall y (proj2 (list_elem_of_In _ _) Hy)).
      destruct (well_formed_line y Hall) as (_ & _ & (c' & Hc' & Hsp) & _).
      unfold raw in Hc. rewrite Hc' in Hc. inversion Hc; subst. exact Hsp. }
  unfold _parse_suggestions. rewrite Hstrip. unfold split_lines.
  rewrite chars_str.
  simpl map at 2.
  rewrite (split_lines_aux_interleave (raw x) (map raw xs) [] Hlines).
  change (map str ((rev [] ++ raw x)%list :: map raw xs))
    with (map str (map raw (x :: xs))).
  rewrite map_map.
  change (map (fun y => str (raw y)) (x :: xs)) with (map line_of (x :: xs)).
  rewrite (collect_numbered _ Hall). apply firstn_map.
Qed.

Lemma parse_numbered_reply_witness :
  _parse_suggestions (reply_of [first_option; second_option])
  = ["Ask what a delay would cost"; "Offer a pilot program"].
Proof.
  apply (parse_numbered_reply [first_option; second_option]).
  constructor; [|constructor; [|constructor]];
    unfold well_formed, clean_item; simpl;
    (split; [discriminate|]);
    (split; [repeat constructor|]);
    (split; [reflexivity|]);
    (split; [repeat constructor; discriminate|]);
    (split;
       [split; [lia|];
        split; intros c Hc; inversion Hc; subst; split; reflexivity|]);
    repeat constructor; discriminate.
Defined.
